(** * The analyzer of ai-sast-tool: a shallow embedding of
      [src/analyzer/analyzer.py] and the properties of its specification.

    Python values are modelled as follows.
    - [str] is [string]; the characters are those of [ascii].
    - [int] is [Z]. Floating point is not modelled: the clock, the sleeping
      times and the retry delays are whole seconds (the code only uses the
      integers 1, 2 and 5 for them), and a JSON number with a fraction or
      an exponent is kept as the exact decimal value of its literal.
    - An operation that can raise returns a [result]; code with side
      effects lives in the monad [M] of a state ([world]) and exceptions.
      A raised exception keeps the state changes made before it.
    - What the code imports from outside the file (the token list of
      [.config], the Groq client, the file system, [os.walk],
      [json.loads]) is the environment [Env]. *)

From Stdlib Require Import ZArith List String Ascii Bool Lia DecimalString.
Import ListNotations.

Local Open Scope string_scope.
Local Open Scope Z_scope.
Set Warnings "-register-all".

(** ** Exceptions and results *)

(** The exception classes that occur; all of them derive from [Exception].
    [HTTPError], [ConnectionError] and [Timeout] are those of
    [requests.exceptions]. *)
Inductive exn : Type :=
| HTTPError (msg : string)
| ConnectionError (msg : string)
| Timeout (msg : string)
| RateLimitException (period_remaining : Z)
| JSONDecodeError (msg : string)
| UnicodeDecodeError (msg : string)
| AttributeError (msg : string)
| TypeError (msg : string)
| ValueError (msg : string)
| OSError (msg : string)
| StopIteration
| OtherException (class_name msg : string).

(** [str(e)]. *)
Definition exn_str (e : exn) : string :=
  match e with
  | HTTPError m | ConnectionError m | Timeout m | JSONDecodeError m
  | UnicodeDecodeError m | AttributeError m | TypeError m | ValueError m
  | OSError m | OtherException _ m => m
  | RateLimitException _ => "too many calls"
  | StopIteration => ""
  end.

(** The outcome of an operation: it returns a value or raises. *)
Inductive outcome (A : Type) : Type :=
| Returns (a : A)
| Raises (e : exn).
Arguments Returns {A} a.
Arguments Raises {A} e.

(** The outcome of running a piece of the model. [OutOfFuel] is not a
    Python outcome: it marks a run that was cut before the code returned
    (the loop [while True] of [sleep_and_retry] runs on fuel), and no
    handler catches it. *)
Inductive result (A : Type) : Type :=
| Ret (a : A)
| Raise (e : exn)
| OutOfFuel.
Arguments Ret {A} a.
Arguments Raise {A} e.
Arguments OutOfFuel {A}.

Definition of_outcome {A} (o : outcome A) : result A :=
  match o with
  | Returns a => Ret a
  | Raises e => Raise e
  end.

(** ** Strings, slices and ranges *)

Definition len (s : string) : Z := Z.of_nat (String.length s).

(** [str(n)] for an integer. *)
Definition str_of_int (n : Z) : string := NilZero.string_of_int (Z.to_int n).

(** An index of a slice, brought into [0 .. len]. *)
Definition slice_index (n i : Z) : Z :=
  if i <? 0 then Z.max 0 (i + n) else Z.min i n.

(** [s[i:j]]. *)
Definition slice (s : string) (i j : Z) : string :=
  let lo := slice_index (len s) i in
  let hi := slice_index (len s) j in
  substring (Z.to_nat lo) (Z.to_nat (hi - lo)) s.

(** [len(range(start, stop, step))] for a step that is not zero. *)
Definition range_len (start stop step : Z) : Z :=
  if 0 <? step
  then (if start <? stop then (stop - start - 1) / step + 1 else 0)
  else (if stop <? start then (start - stop - 1) / (- step) + 1 else 0).

(** [range(start, stop, step)] as the list of its elements. *)
Definition range (start stop step : Z) : outcome (list Z) :=
  if step =? 0 then Raises (ValueError "range() arg 3 must not be zero")
  else Returns (map (fun k => start + Z.of_nat k * step)
                (seq 0 (Z.to_nat (range_len start stop step)))).

(** [s.endswith(suffix)] and [s.endswith(tuple)]. *)
Definition endswith (s suffix : string) : bool :=
  let n := String.length s in
  let k := String.length suffix in
  (k <=? n)%nat && String.eqb (substring (n - k) k s) suffix.

Definition endswith_any (s : string) (suffixes : list string) : bool :=
  existsb (endswith s) suffixes.

(** [posixpath.join(a, b)]. *)
Definition path_join (a b : string) : string :=
  if prefix "/" b then b
  else if (a =? "")%string || endswith a "/" then a ++ b
  else a ++ "/" ++ b.

(** ** [CodeAnalyzer.split_content] *)

Definition default_max_length : Z := 5000.

(** [[content[i:i + max_length] for i in range(0, len(content), max_length)]] *)
Definition split_content (content : string) (max_length : Z)
  : outcome (list string) :=
  match range 0 (len content) max_length with
  | Returns starts =>
      Returns (map (fun i => slice content i (i + max_length)) starts)
  | Raises e => Raises e
  end.

(** [SUPPORTED_EXTENSIONS] and [is_supported_file]. *)
Definition SUPPORTED_EXTENSIONS : list string :=
  [".py"; ".js"; ".java"; ".cpp"; ".c"; ".cs"; ".ts"; ".php"].

Definition is_supported_file (filename : string) : bool :=
  endswith_any filename SUPPORTED_EXTENSIONS.

(** ** Python values decoded from JSON *)

(** A float: the exact decimal value [mantissa * 10 ^ exponent] of its
    literal, or one of the literals [NaN], [Infinity], [-Infinity] that
    [json.loads] accepts. *)
Inductive pyfloat : Type :=
| FDec (mantissa exponent : Z)
| FNaN
| FInf (negative : bool).

Inductive pyval : Type :=
| PNone
| PBool (b : bool)
| PInt (n : Z)
| PFloat (x : pyfloat)
| PStr (s : string)
| PList (l : list pyval)
| PDict (d : list (string * pyval)).

(** A [dict] keeps its keys in insertion order, each key once. *)
Fixpoint dict_lookup (d : list (string * pyval)) (key : string) : option pyval :=
  match d with
  | [] => None
  | (k, v) :: d' => if (k =? key)%string then Some v else dict_lookup d' key
  end.

Fixpoint dict_set (d : list (string * pyval)) (key : string) (v : pyval)
  : list (string * pyval) :=
  match d with
  | [] => [(key, v)]
  | (k, v') :: d' =>
      if (k =? key)%string then (k, v) :: d' else (k, v') :: dict_set d' key v
  end.

Definition type_name (v : pyval) : string :=
  match v with
  | PNone => "NoneType"
  | PBool _ => "bool"
  | PInt _ => "int"
  | PFloat _ => "float"
  | PStr _ => "str"
  | PList _ => "list"
  | PDict _ => "dict"
  end.

(** [v.get(key, default)]: only a [dict] has the attribute [get]. *)
Definition py_get (v : pyval) (key : string) (default : pyval)
  : outcome pyval :=
  match v with
  | PDict d =>
      Returns (match dict_lookup d key with Some x => x | None => default end)
  | _ => Raises (AttributeError
                  ("'" ++ type_name v ++ "' object has no attribute 'get'"))
  end.

(** The float nearest to a decimal is zero when the decimal is at most
    half of the smallest positive float, [2 ^ -1075]. *)
Definition float_is_zero (x : pyfloat) : bool :=
  match x with
  | FDec m e =>
      (m =? 0) || ((e <? 0) && (Z.abs m * 2 ^ 1075 <=? 10 ^ (- e)))
  | FNaN | FInf _ => false
  end.

(** [bool(v)]. *)
Definition truthy (v : pyval) : bool :=
  match v with
  | PNone => false
  | PBool b => b
  | PInt n => negb (n =? 0)
  | PFloat x => negb (float_is_zero x)
  | PStr s => negb (s =? "")%string
  | PList l => match l with [] => false | _ => true end
  | PDict d => match d with [] => false | _ => true end
  end.

Fixpoint chars (s : string) : list pyval :=
  match s with
  | EmptyString => []
  | String c s' => PStr (String c EmptyString) :: chars s'
  end.

(** The elements [list.extend(v)] appends: those of iterating [v]. *)
Definition py_iter (v : pyval) : outcome (list pyval) :=
  match v with
  | PList l => Returns l
  | PStr s => Returns (chars s)
  | PDict d => Returns (map (fun kv => PStr (fst kv)) d)
  | _ => Raises (TypeError ("'" ++ type_name v ++ "' object is not iterable"))
  end.

(** ** The state and the monad *)

Inductive level : Type := INFO | WARNING | ERROR.

(** What a run does that can be observed from outside, in order.
    [Limit admitted] records a pass through the rate limiter and
    [Attempt] a call of an operation given by its outcomes ([invoke]);
    [Report] is a call of [html_report.add_file_summary]. *)
Inductive event : Type :=
| Log (lvl : level) (msg : string)
| Sleep (seconds : Z)
| Limit (admitted : bool)
| Attempt
| Request (model content : string)
| Report (file_path : string) (summaries : list pyval).

Record world : Type := World {
  clock : Z;          (* time.time(), in seconds *)
  last_reset : Z;     (* the state of the [limits] decorator *)
  num_calls : Z;
  token_pos : nat;    (* how many tokens [self.token_cycle] has given *)
  requests : nat;     (* how many outcomes [invoke] has consumed *)
  trace : list event
}.

Definition emit (ev : event) (w : world) : world :=
  World (clock w) (last_reset w) (num_calls w) (token_pos w) (requests w)
        (trace w ++ [ev]).

Definition advance (d : Z) (w : world) : world :=
  World (clock w + d) (last_reset w) (num_calls w) (token_pos w) (requests w)
        (trace w).

Definition set_limiter (reset calls : Z) (w : world) : world :=
  World (clock w) reset calls (token_pos w) (requests w) (trace w).

Definition set_token_pos (n : nat) (w : world) : world :=
  World (clock w) (last_reset w) (num_calls w) n (requests w) (trace w).

Definition count_request (w : world) : world :=
  World (clock w) (last_reset w) (num_calls w) (token_pos w) (S (requests w))
        (trace w).

Definition M (A : Type) : Type := world -> result A * world.

Definition ret {A} (a : A) : M A := fun w => (Ret a, w).

Definition bind {A B} (m : M A) (k : A -> M B) : M B :=
  fun w =>
    match m w with
    | (Ret a, w') => k a w'
    | (Raise e, w') => (Raise e, w')
    | (OutOfFuel, w') => (OutOfFuel, w')
    end.

Declare Scope py_scope.
Delimit Scope py_scope with py.
Notation "x <- m ;; k" := (bind m (fun x => k))
  (at level 100, m at next level, right associativity) : py_scope.
Notation "m ;;; k" := (bind m (fun _ => k))
  (at level 100, right associativity) : py_scope.
Local Open Scope py_scope.

(** A pure operation that can raise, run inside [M]. *)
Definition lift {A} (o : outcome A) : M A := fun w => (of_outcome o, w).

(** [try: m  except ...:] the handler answers [None] for an exception
    that no [except] clause matches. *)
Definition try_except {A} (m : M A) (handler : exn -> option (M A)) : M A :=
  fun w =>
    match m w with
    | (Raise e, w') =>
        match handler e with
        | Some h => h w'
        | None => (Raise e, w')
        end
    | other => other
    end.

(** [for x in l: body]. *)
Fixpoint for_each {A} (l : list A) (body : A -> M unit) : M unit :=
  match l with
  | [] => ret tt
  | x :: l' => body x ;;; for_each l' body
  end.

Definition log (lvl : level) (msg : string) : M unit :=
  fun w => (Ret tt, emit (Log lvl msg) w).

(** [time.sleep(seconds)]: the clock moves by the time slept, and by
    nothing else (the time the code itself takes is not counted). *)
Definition sleep (seconds : Z) : M unit :=
  fun w =>
    if seconds <? 0
    then (Raise (ValueError "sleep length must be non-negative"), w)
    else (Ret tt, emit (Sleep seconds) (advance seconds w)).

(** An operation given by the outcomes of its successive calls: the call
    number [n] (counted over the whole run) has the outcome [outcomes n]. *)
Definition invoke {A} (ev : event) (outcomes : nat -> outcome A) : M A :=
  fun w => (of_outcome (outcomes (requests w)), count_request (emit ev w)).

(** ** The environment *)

Record GroqClient : Type := { max_retries : Z; timeout : Z }.

Record Env : Type := {
  (* [tokens] of [.config] *)
  tokens : list string;
  (* [Groq(max_retries=..., timeout=...)] *)
  Groq : Z -> Z -> outcome GroqClient;
  (* the outcome of request number [n]:
     [client.chat.completions.create(...).choices[0].message.content] for
     the given model and user content *)
  chat_completion : nat -> string -> string -> outcome string;
  (* [open(path, 'r', encoding=...).read()] for an encoding and a path *)
  read_text : string -> string -> outcome string;
  (* the pairs [(root, files)] that [os.walk(directory)] yields *)
  os_walk : string -> list (string * list string);
  json_loads : string -> outcome pyval
}.

(** ** The decorators *)

Definition CALLS : Z := 5.
Definition PERIOD : Z := 1.

(** [retry(exceptions, tries, delay, backoff)(func)]: the loop
    [while _tries > 1] runs [tries - 1] times at most; [n] counts the
    iterations left and the call after the loop is the case [O]. *)
Fixpoint retry_loop {A} (exceptions : exn -> bool) (backoff : Z) (func : M A)
  (n : nat) (_delay : Z) : M A :=
  match n with
  | O => func
  | S n' =>
      try_except func (fun e =>
        if exceptions e
        then Some (log WARNING (exn_str e ++ ", retrying in "
                                ++ str_of_int _delay ++ " seconds...") ;;;
                   sleep _delay ;;;
                   retry_loop exceptions backoff func n' (_delay * backoff))
        else None)
  end.

Definition default_tries : Z := 3.
Definition default_delay : Z := 1.
Definition default_backoff : Z := 2.

Definition retry {A} (exceptions : exn -> bool) (tries delay backoff : Z)
  (func : M A) : M A :=
  retry_loop exceptions backoff func (Z.to_nat (tries - 1)) delay.

(** [limits(calls, period)(func)] of the package [ratelimit], which is not
    part of the repository: within one period the first [calls] calls go
    through, a further one raises [RateLimitException] with the time left
    in the period; a call after the period has passed opens a new one. *)
Definition limits {A} (calls period : Z) (func : M A) : M A :=
  fun w =>
    let clamped_calls := Z.max 1 (Z.min (2 ^ 63 - 1) calls) in
    let period_remaining := period - (clock w - last_reset w) in
    let w1 := if period_remaining <=? 0 then set_limiter (clock w) 0 w else w in
    let w2 := set_limiter (last_reset w1) (num_calls w1 + 1) w1 in
    if clamped_calls <? num_calls w2
    then (Raise (RateLimitException period_remaining), emit (Limit false) w2)
    else func (emit (Limit true) w2).

(** [sleep_and_retry(func)] of the same package: [while True], call
    [func] and on [RateLimitException] sleep for the time left and go
    round again. [fuel] bounds the number of rounds. *)
Fixpoint sleep_and_retry {A} (fuel : nat) (func : M A) : M A :=
  match fuel with
  | O => fun w => (OutOfFuel, w)
  | S fuel' =>
      try_except func (fun e =>
        match e with
        | RateLimitException period_remaining =>
            Some (sleep period_remaining ;;; sleep_and_retry fuel' func)
        | _ => None
        end)
  end.

(** ** [CodeAnalyzer] *)

Record CodeAnalyzer : Type := {
  directory : string;
  token_cycle : list string;   (* the items [cycle(tokens)] goes round *)
  client : GroqClient
}.

Definition default_max_retries : Z := 5.
Definition default_timeout : Z := 20.

(** [CodeAnalyzer.__init__]. *)
Definition __init__ (E : Env) (directory : string) (max_retries timeout : Z)
  : M CodeAnalyzer :=
  fun w =>
    match Groq E max_retries timeout with
    | Returns c =>
        (Ret {| directory := directory; token_cycle := tokens E; client := c |},
         set_token_pos 0 w)
    | Raises e => (Raise e, set_token_pos 0 w)
    end.

(** [get_next_token]: [next] of a cycle over no items raises
    [StopIteration]. *)
Definition get_next_token (self : CodeAnalyzer) : M string :=
  fun w =>
    match token_cycle self with
    | [] => (Raise StopIteration, w)
    | t :: _ =>
        (Ret (nth (token_pos w mod List.length (token_cycle self))%nat
                  (token_cycle self) t),
         set_token_pos (S (token_pos w)) w)
    end.

(** The classes of [(HTTPError, ConnectionError, Timeout)]. *)
Definition is_network (e : exn) : bool :=
  match e with
  | HTTPError _ | ConnectionError _ | Timeout _ => true
  | _ => false
  end.

(** The body of [process_code], under its decorators. The request carries
    the fixed system message, [temperature=0.1], [max_tokens=512],
    [top_p=1] and [stream=False]; the model and the user content vary. *)
Definition process_code_body (E : Env) (self : CodeAnalyzer)
  (file_path model_token content : string) : M string :=
  try_except
    (log INFO ("Processing " ++ file_path ++ " with token " ++ model_token) ;;;
     invoke (Request model_token content)
            (fun n => chat_completion E n model_token content))
    (fun e =>
       if is_network e
       then Some (log ERROR ("Network error processing " ++ file_path ++ ": "
                             ++ exn_str e) ;;;
                  ret ("Network error: " ++ exn_str e))
       else Some (log ERROR ("Unhandled exception processing " ++ file_path) ;;;
                  ret ("Error: " ++ exn_str e))).

(** The decorators of [process_code], from the innermost:
    [@retry((HTTPError, ConnectionError, Timeout), tries=3)], then
    [@limits(calls=CALLS, period=PERIOD)], then [@sleep_and_retry]. *)
Definition process_code_decorators {A} (fuel : nat) (func : M A) : M A :=
  sleep_and_retry fuel
    (limits CALLS PERIOD
       (retry is_network 3 default_delay default_backoff func)).

Definition process_code (E : Env) (fuel : nat) (self : CodeAnalyzer)
  (file_path model_token content : string) : M string :=
  process_code_decorators fuel
    (process_code_body E self file_path model_token content).

(** [read_file]. *)
Definition read_file (E : Env) (file_path : string) : M string :=
  try_except (lift (read_text E "utf-8" file_path))
    (fun e =>
       match e with
       | UnicodeDecodeError _ => Some (lift (read_text E "latin-1" file_path))
       | _ => None
       end).

(** [parse_issues]. *)
Definition parse_issues (E : Env) (result file_path : string) : M pyval :=
  try_except
    (decoded <- lift (json_loads E result) ;;
     issues <- lift (py_get decoded "issues" (PList [])) ;;
     (if truthy issues then ret tt
      else log INFO (file_path ++ ": No significant vulnerabilities detected.")) ;;;
     ret issues)
    (fun e =>
       match e with
       | JSONDecodeError _ =>
           Some (log ERROR ("Failed to parse JSON response for " ++ file_path) ;;;
                 ret (PList []))
       | _ => None
       end).

(** [collect_issues]: the loop over the chunks, with [summaries] so far. *)
Fixpoint collect_loop (E : Env) (fuel : nat) (self : CodeAnalyzer)
  (file_path token : string) (contents : list string) (summaries : list pyval)
  : M (list pyval) :=
  match contents with
  | [] => ret summaries
  | content_chunk :: rest =>
      result <- process_code E fuel self file_path token content_chunk ;;
      issues <- parse_issues E result file_path ;;
      items <- lift (py_iter issues) ;;
      collect_loop E fuel self file_path token rest (summaries ++ items)
  end.

Definition collect_issues (E : Env) (fuel : nat) (self : CodeAnalyzer)
  (file_path token : string) (contents : list string) : M (list pyval) :=
  collect_loop E fuel self file_path token contents [].

(** Modelled from the spec: [html_report.add_file_summary(file_path,
    summaries)], a method of the report object handed to [analyze], whose
    class is not in the file. The specification has it as the outbound
    sink [add_file_summary(path, findings)], a collaborator that renders
    the report; here a call is recorded in the trace. *)
Definition add_file_summary (file_path : string) (summaries : list pyval)
  : M unit :=
  fun w => (Ret tt, emit (Report file_path summaries) w).

(** The body of the inner loop of [analyze], for one file name. *)
Definition analyze_file (E : Env) (fuel : nat) (self : CodeAnalyzer)
  (root filename : string) : M unit :=
  if negb (is_supported_file filename) then ret tt
  else
    let file_path := path_join root filename in
    current_token <- get_next_token self ;;
    log INFO ("Analyzing file: " ++ file_path) ;;;
    read <- try_except (content <- read_file E file_path ;; ret (Some content))
              (fun e =>
                 Some (log ERROR ("Failed to read " ++ file_path ++ ": "
                                  ++ exn_str e) ;;;
                       ret None)) ;;
    match read with
    | None => ret tt
    | Some content =>
        contents <- (if 5000 <? len content
                     then lift (split_content content default_max_length)
                     else ret [content]) ;;
        summaries <- collect_issues E fuel self file_path current_token
                                    contents ;;
        add_file_summary file_path summaries
    end.

(** [analyze]. *)
Definition analyze (E : Env) (fuel : nat) (self : CodeAnalyzer) : M unit :=
  for_each (os_walk E (directory self)) (fun entry =>
    for_each (snd entry) (fun filename =>
      analyze_file E fuel self (fst entry) filename)).

(** ** A decoder for the instances

    [json.loads] belongs to the Python library and the theorems hold for
    every decoder ([json_loads] of [Env]). The closed instances below need
    one that runs: [Decoder.json_loads] follows the scanner of the [json]
    package on strings of characters below 256. What it does not cover
    (an escape of a code point above 255) raises [NotModelled]. *)
Module Decoder.

Local Open Scope char_scope.
Local Open Scope Z_scope.

Definition is_ws (c : ascii) : bool :=
  match c with
  | " " | "009" | "010" | "013" => true
  | _ => false
  end.

Fixpoint skip_ws (s : list ascii) : list ascii :=
  match s with
  | c :: r => if is_ws c then skip_ws r else s
  | [] => []
  end.

Definition digit (c : ascii) : option Z :=
  let n := Z.of_nat (nat_of_ascii c) in
  if (48 <=? n) && (n <=? 57) then Some (n - 48) else None.

Definition hex_digit (c : ascii) : option Z :=
  let n := Z.of_nat (nat_of_ascii c) in
  if (48 <=? n) && (n <=? 57) then Some (n - 48)
  else if (65 <=? n) && (n <=? 70) then Some (n - 55)
  else if (97 <=? n) && (n <=? 102) then Some (n - 87)
  else None.

(** The digits at the head of [s]: their value after [acc], how many
    there are after [count], and what follows them. *)
Fixpoint scan_digits (s : list ascii) (acc count : Z) : Z * Z * list ascii :=
  match s with
  | c :: r =>
      match digit c with
      | Some d => scan_digits r (10 * acc + d) (count + 1)
      | None => (acc, count, s)
      end
  | [] => (acc, count, s)
  end.

(** The pattern of a number: an optional minus sign and either a zero or
    digits that start with a non-zero one; then, if present, a point and
    digits; then, if present, e or E, an optional sign and digits. The
    number is an [int] when only the first group is there and a [float]
    otherwise. *)
Definition scan_number (s : list ascii) : option (pyval * list ascii) :=
  let '(negative, s1) :=
    match s with "-" :: r => (true, r) | _ => (false, s) end in
  let integer :=
    match s1 with
    | "0" :: r => Some (0, r)
    | c :: _ =>
        match digit c with
        | Some _ => let '(v, _, r) := scan_digits s1 0 0 in Some (v, r)
        | None => None
        end
    | [] => None
    end in
  match integer with
  | None => None
  | Some (i, s2) =>
      let '(frac, s3) :=
        match s2 with
        | "." :: c :: r =>
            match digit c with
            | Some _ =>
                let '(v, k, r') := scan_digits (c :: r) 0 0 in (Some (v, k), r')
            | None => (None, s2)
            end
        | _ => (None, s2)
        end in
      let exponent_of (sign : Z) (r : list ascii) :=
        match r with
        | c :: _ =>
            match digit c with
            | Some _ =>
                let '(v, _, r') := scan_digits r 0 0 in (Some (sign * v), r')
            | None => (None, s3)
            end
        | [] => (None, s3)
        end in
      let '(exponent, s4) :=
        match s3 with
        | "e" :: "+" :: r | "E" :: "+" :: r => exponent_of 1 r
        | "e" :: "-" :: r | "E" :: "-" :: r => exponent_of (-1) r
        | "e" :: r | "E" :: r => exponent_of 1 r
        | _ => (None, s3)
        end in
      let signed (n : Z) := if negative then - n else n in
      match frac, exponent with
      | None, None => Some (PInt (signed i), s4)
      | _, _ =>
          let '(f, k) := match frac with Some fk => fk | None => (0, 0) end in
          let e := match exponent with Some e => e | None => 0 end in
          Some (PFloat (FDec (signed (i * 10 ^ k + f)) (e - k)), s4)
      end
  end.

Definition not_modelled {A} : result A :=
  Raise (OtherException "NotModelled" "code point above 255").

(** [py_scanstring] in strict mode, after the opening quote. *)
Fixpoint scan_string (s : list ascii) (acc : string)
  : result (string * list ascii) :=
  let put (c : ascii) := (acc ++ String c EmptyString)%string in
  match s with
  | [] => Raise (JSONDecodeError "Unterminated string starting at")
  | "034" :: r => Ret (acc, r)
  | "\" :: esc :: r =>
      match esc with
      | "034" => scan_string r (put "034")
      | "\" => scan_string r (put "\")
      | "/" => scan_string r (put "/")
      | "b" => scan_string r (put "008")
      | "f" => scan_string r (put "012")
      | "n" => scan_string r (put "010")
      | "r" => scan_string r (put "013")
      | "t" => scan_string r (put "009")
      | "u" =>
          match r with
          | h1 :: h2 :: h3 :: h4 :: r' =>
              match hex_digit h1, hex_digit h2, hex_digit h3, hex_digit h4 with
              | Some a, Some b, Some c, Some d =>
                  let n := ((a * 16 + b) * 16 + c) * 16 + d in
                  if n <? 256
                  then scan_string r' (put (ascii_of_nat (Z.to_nat n)))
                  else not_modelled
              | _, _, _, _ => Raise (JSONDecodeError "Invalid \\uXXXX escape")
              end
          | _ => Raise (JSONDecodeError "Invalid \\uXXXX escape")
          end
      | _ => Raise (JSONDecodeError "Invalid \\escape")
      end
  | "\" :: [] => Raise (JSONDecodeError "Unterminated string starting at")
  | c :: r =>
      if (nat_of_ascii c <? 32)%nat
      then Raise (JSONDecodeError "Invalid control character at")
      else scan_string r (put c)
  end.

Definition scanner : Type := list ascii -> result (pyval * list ascii).

(** The loop of [JSONArray], at the first character of an element. *)
Fixpoint scan_items (scan_once : scanner) (n : nat) (values : list pyval)
  (s : list ascii) : result (pyval * list ascii) :=
  match n with
  | O => OutOfFuel
  | S n' =>
      match scan_once s with
      | Ret (value, r) =>
          match skip_ws r with
          | "]" :: r' => Ret (PList (values ++ [value]), r')
          | "," :: r' =>
              scan_items scan_once n' (values ++ [value]) (skip_ws r')
          | _ => Raise (JSONDecodeError "Expecting ',' delimiter")
          end
      | Raise e => Raise e
      | OutOfFuel => OutOfFuel
      end
  end.

(** The loop of [JSONObject], after the opening quote of a key. *)
Fixpoint scan_members (scan_once : scanner) (n : nat)
  (pairs : list (string * pyval)) (s : list ascii)
  : result (pyval * list ascii) :=
  match n with
  | O => OutOfFuel
  | S n' =>
      match scan_string s EmptyString with
      | Ret (key, r) =>
          match skip_ws r with
          | ":" :: r1 =>
              match scan_once (skip_ws r1) with
              | Ret (value, r2) =>
                  let pairs' := dict_set pairs key value in
                  match skip_ws r2 with
                  | "}" :: r3 => Ret (PDict pairs', r3)
                  | "," :: r3 =>
                      match skip_ws r3 with
                      | "034" :: r4 => scan_members scan_once n' pairs' r4
                      | _ => Raise (JSONDecodeError
                           "Expecting property name enclosed in double quotes")
                      end
                  | _ => Raise (JSONDecodeError "Expecting ',' delimiter")
                  end
              | Raise e => Raise e
              | OutOfFuel => OutOfFuel
              end
          | _ => Raise (JSONDecodeError "Expecting ':' delimiter")
          end
      | Raise e => Raise e
      | OutOfFuel => OutOfFuel
      end
  end.

(** [scan_once] of the scanner, at the first character of a value. *)
Fixpoint scan_once (fuel : nat) (s : list ascii) : result (pyval * list ascii) :=
  match fuel with
  | O => OutOfFuel
  | S fuel' =>
      match s with
      | "034" :: r =>
          match scan_string r EmptyString with
          | Ret (str, r') => Ret (PStr str, r')
          | Raise e => Raise e
          | OutOfFuel => OutOfFuel
          end
      | "{" :: r =>
          match skip_ws r with
          | "}" :: r' => Ret (PDict [], r')
          | "034" :: r' =>
              scan_members (scan_once fuel') (S (List.length r)) [] r'
          | _ => Raise (JSONDecodeError
                          "Expecting property name enclosed in double quotes")
          end
      | "[" :: r =>
          match skip_ws r with
          | "]" :: r' => Ret (PList [], r')
          | r' => scan_items (scan_once fuel') (S (List.length r)) [] r'
          end
      | "n" :: "u" :: "l" :: "l" :: r => Ret (PNone, r)
      | "t" :: "r" :: "u" :: "e" :: r => Ret (PBool true, r)
      | "f" :: "a" :: "l" :: "s" :: "e" :: r => Ret (PBool false, r)
      | _ =>
          match scan_number s with
          | Some found => Ret found
          | None =>
              match s with
              | "N" :: "a" :: "N" :: r => Ret (PFloat FNaN, r)
              | "I" :: "n" :: "f" :: "i" :: "n" :: "i" :: "t" :: "y" :: r =>
                  Ret (PFloat (FInf false), r)
              | "-" :: "I" :: "n" :: "f" :: "i" :: "n" :: "i" :: "t" :: "y" :: r =>
                  Ret (PFloat (FInf true), r)
              | _ => Raise (JSONDecodeError "Expecting value")
              end
          end
      end
  end.

(** [json.loads(s)] for a [str]: a value between white space, and nothing
    after it. *)
Definition json_loads (s : string) : outcome pyval :=
  let l := list_ascii_of_string s in
  match scan_once (S (List.length l)) (skip_ws l) with
  | Ret (obj, r) =>
      match skip_ws r with
      | [] => Returns obj
      | _ => Raises (JSONDecodeError "Extra data")
      end
  | Raise e => Raises e
  | OutOfFuel => Raises (OtherException "NotModelled" "nesting too deep")
  end.

End Decoder.


(** ** Reading a trace *)

Fixpoint pick {A} (f : event -> option A) (t : list event) : list A :=
  match t with
  | [] => []
  | ev :: t' =>
      match f ev with
      | Some a => a :: pick f t'
      | None => pick f t'
      end
  end.

(** The times slept, in order. *)
Definition sleeps : list event -> list Z :=
  pick (fun ev => match ev with Sleep d => Some d | _ => None end).

(** The number of calls of the operation under [invoke Attempt]. *)
Definition attempts (t : list event) : nat :=
  List.length (pick (fun ev => match ev with Attempt => Some tt | _ => None end) t).

(** The passes through the rate limiter: [true] for a call let through. *)
Definition limiter_passes : list event -> list bool :=
  pick (fun ev => match ev with Limit b => Some b | _ => None end).

(** The calls of [add_file_summary]. *)
Definition reports : list event -> list (string * list pyval) :=
  pick (fun ev => match ev with Report p l => Some (p, l) | _ => None end).

(** How many attempts the loop of [retry] sees fail with a retried
    exception before the call that ends it, when [n] iterations are left
    and the next call has the number [start]. *)
Fixpoint retries {A} (exceptions : exn -> bool) (outcomes : nat -> outcome A)
  (start n : nat) : nat :=
  match n with
  | O => O
  | S n' =>
      match outcomes start with
      | Raises e =>
          if exceptions e then S (retries exceptions outcomes (S start) n')
          else O
      | Returns _ => O
      end
  end.

(** Every attempt in the trace comes right after a pass through the rate
    limiter that let it through. *)
Fixpoint every_attempt_limited (t : list event) : bool :=
  match t with
  | [] => true
  | Attempt :: _ => false
  | Limit true :: Attempt :: t' => every_attempt_limited t'
  | _ :: t' => every_attempt_limited t'
  end.

(** The string [process_code] gives for an outcome of the request. *)
Definition response_text (o : outcome string) : string :=
  match o with
  | Returns text => text
  | Raises e =>
      if is_network e then "Network error: " ++ exn_str e
      else "Error: " ++ exn_str e
  end.

(** The outcome of [read_file]: the second encoding is tried when the
    first raises [UnicodeDecodeError]. *)
Definition read_outcome (E : Env) (file_path : string) : outcome string :=
  match read_text E "utf-8" file_path with
  | Raises (UnicodeDecodeError _) => read_text E "latin-1" file_path
  | o => o
  end.

(** The paths of the files [analyze] has to report: those with a supported
    name that can be read, in the order of the walk. *)
Definition eligible_paths (E : Env) (entries : list (string * list string))
  : list string :=
  flat_map (fun entry =>
    flat_map (fun filename =>
      let file_path := path_join (fst entry) filename in
      if is_supported_file filename
      then match read_outcome E file_path with
           | Returns _ => [file_path]
           | Raises _ => []
           end
      else []) (snd entry)) entries.

(** An answer that [parse_issues] and [collect_issues] get through: it
    does not decode, or it decodes to an object whose value under
    ["issues"], if there is one, can be iterated. *)
Definition well_shaped (E : Env) (response : string) : bool :=
  match json_loads E response with
  | Raises (JSONDecodeError _) => true
  | Returns (PDict d) =>
      match dict_lookup d "issues" with
      | Some issues =>
          match py_iter issues with Returns _ => true | Raises _ => false end
      | None => true
      end
  | _ => false
  end.

(** A step that returns and only adds events other than reports. *)
Definition quiet {A} (m : M A) : Prop :=
  forall w, exists a w' new,
    m w = (Ret a, w') /\
    trace w' = (trace w ++ new)%list /\
    reports new = [].

(** The layering the specification words describe, for comparison with
    [process_code_decorators]: retry around the rate limit around the
    call. *)
Definition spec_order_decorators {A} (fuel : nat) (func : M A) : M A :=
  retry is_network 3 default_delay default_backoff
    (sleep_and_retry fuel (limits CALLS PERIOD func)).

(** ** Instances *)

(** The state at the start of a run: the clock at 0, the limiter created
    then, nothing done yet. *)
Definition w0 : world := World 0 0 0 0 0 [].

(** An operation that fails twice with a connection error and then
    succeeds. *)
Definition flaky (n : nat) : outcome string :=
  match n with
  | 0%nat | 1%nat => Raises (ConnectionError "connection reset")
  | _ => Returns "ok"
  end.

(** A JSON text written with ['] where it has the double quote. *)
Fixpoint json_text (s : string) : string :=
  match s with
  | EmptyString => EmptyString
  | String c s' =>
      String (if Ascii.eqb c "'" then ascii_of_nat 34 else c) (json_text s')
  end.

Definition no_issues : string := json_text "{'issues': []}".

(** A project directory with three source files and a text file; [b.py]
    is not valid UTF-8 and [c.py] cannot be opened. The service answers
    request number [n] with [nth n responses]. *)
Definition project_env (token_list : list string)
  (responses : list (outcome string)) : Env := {|
  tokens := token_list;
  Groq := fun r t => Returns {| max_retries := r; timeout := t |};
  chat_completion := fun n _ _ => nth n responses (Returns no_issues);
  read_text := fun encoding path =>
    if (path =? "proj/a.py")%string then Returns "eval(input())"
    else if (path =? "proj/b.py")%string then
      if (encoding =? "utf-8")%string
      then Raises (UnicodeDecodeError "invalid start byte")
      else Returns "password = input()"
    else Raises (OSError "Permission denied");
  os_walk := fun d => [(d, ["a.py"; "notes.txt"; "b.py"; "c.py"])];
  json_loads := Decoder.json_loads
|}.

Definition analyzer_of (E : Env) : CodeAnalyzer := {|
  directory := "proj";
  token_cycle := tokens E;
  client := {| max_retries := default_max_retries; timeout := default_timeout |}
|}.

Definition two_issues : string :=
  json_text
    ("{'issues': [{'severity': 'HIGH', 'description': 'eval of user input', "
     ++ "'line': 1}, {'severity': 'BOGUS', 'description': 'x', 'line': -3}]}").

(** ** Further readings of a run *)

(** [n] calls of [get_next_token] in a row, and the tokens they give. *)
Fixpoint next_tokens (self : CodeAnalyzer) (n : nat) : M (list string) :=
  match n with
  | O => ret []
  | S n' =>
      t <- get_next_token self ;;
      ts <- next_tokens self n' ;;
      ret (t :: ts)
  end.

(** The requests sent, as pairs of the model and the user content. *)
Definition requests_made : list event -> list (string * string) :=
  pick (fun ev => match ev with Request m c => Some (m, c) | _ => None end).

(** The warnings written to the log. *)
Definition warnings : list event -> list string :=
  pick (fun ev => match ev with Log WARNING msg => Some msg | _ => None end).

(** A list of events added to the trace, in order. *)
Fixpoint emits (evs : list event) (w : world) : world :=
  match evs with
  | [] => w
  | ev :: evs' => emits evs' (emit ev w)
  end.

(** The state in which [sleep_and_retry] over [limits(CALLS, PERIOD)]
    starts the function: in a new period when the old one has passed, in
    the running period when it has room, and otherwise in a new period
    after sleeping through the rest of the old one. *)
Definition admitted (w : world) : world :=
  let period_remaining := PERIOD - (clock w - last_reset w) in
  if period_remaining <=? 0
  then emit (Limit true) (set_limiter (clock w) 1 w)
  else if CALLS <? num_calls w + 1
  then emit (Limit true)
         (set_limiter (clock w + period_remaining) 1
            (emit (Sleep period_remaining)
               (advance period_remaining
                  (emit (Limit false)
                     (set_limiter (last_reset w) (num_calls w + 1) w)))))
  else emit (Limit true) (set_limiter (last_reset w) (num_calls w + 1) w).

(** The events of the body of [process_code] for an outcome of the
    request. *)
Definition body_events (file_path model_token content : string)
  (o : outcome string) : list event :=
  [Log INFO ("Processing " ++ file_path ++ " with token " ++ model_token);
   Request model_token content]
  ++ match o with
     | Returns _ => []
     | Raises e =>
         if is_network e
         then [Log ERROR ("Network error processing " ++ file_path ++ ": "
                          ++ exn_str e)]
         else [Log ERROR ("Unhandled exception processing " ++ file_path)]
     end.

(** The findings a well shaped answer adds to the summaries of a file. *)
Definition findings (E : Env) (response : string) : list pyval :=
  match json_loads E response with
  | Returns (PDict d) =>
      match dict_lookup d "issues" with
      | Some issues =>
          match py_iter issues with Returns items => items | Raises _ => [] end
      | None => []
      end
  | _ => []
  end.


(** The supported file names of a walk, in order. *)
Definition supported_names (entries : list (string * list string))
  : list string :=
  flat_map (fun entry => filter is_supported_file (snd entry)) entries.

(** * Properties *)

(** ** Substrings *)

Lemma substring_zero_length (s : string) (a : nat) : substring a 0 s = "".
Proof.
  revert a. induction s as [|c s IH]; intros [|a]; simpl; auto.
Qed.

Lemma substring_all (s : string) (n : nat) :
  (String.length s <= n)%nat -> substring 0 n s = s.
Proof.
  revert n. induction s as [|c s IH]; intros [|n] H; simpl in *; auto;
    try lia.
  f_equal. apply IH. lia.
Qed.

Lemma substring_past_end (s : string) (a b : nat) :
  (String.length s <= a)%nat -> substring a b s = "".
Proof.
  revert a b. induction s as [|c s IH]; intros [|a] [|b] H; simpl in *; auto;
    try lia; apply IH; lia.
Qed.

(** Asking for more than is left gives what is left. *)
Lemma substring_truncates (s : string) (a b : nat) :
  (String.length s <= a + b)%nat ->
  substring a b s = substring a (String.length s - a) s.
Proof.
  revert a b. induction s as [|c s IH]; intros [|a] [|b] H; simpl in *; auto;
    try lia.
  - f_equal. rewrite (IH 0%nat b) by lia. now rewrite Nat.sub_0_r.
  - apply IH. lia.
  - apply IH. lia.
Qed.

Lemma substring_prefix_app (s : string) (a b : nat) :
  substring 0 (a + b) s = substring 0 a s ++ substring a b s.
Proof.
  revert a b. induction s as [|c s IH]; intros [|a] b; simpl.
  - destruct b; reflexivity.
  - destruct b; reflexivity.
  - destruct b; reflexivity.
  - f_equal. apply IH.
Qed.

Lemma substring_length (s : string) (a b : nat) :
  String.length (substring a b s) = Nat.min b (String.length s - a).
Proof.
  revert a b. induction s as [|c s IH]; intros [|a] [|b]; simpl; auto.
  rewrite IH. now rewrite Nat.sub_0_r.
Qed.

(** A slice between two indices in order is the substring of the source. *)
Lemma slice_substring (s : string) (i j : Z) :
  0 <= i <= j ->
  slice s i j = substring (Z.to_nat i) (Z.to_nat (j - i)) s.
Proof.
  intros H. unfold slice, slice_index, len.
  destruct (Z.ltb_spec i 0); [lia|].
  destruct (Z.ltb_spec j 0); [lia|].
  set (n := String.length s).
  destruct (Z.le_gt_cases i (Z.of_nat n)) as [Hi|Hi].
  - rewrite (Z.min_l i) by lia.
    destruct (Z.le_gt_cases j (Z.of_nat n)) as [Hj|Hj].
    + rewrite (Z.min_l j) by lia. reflexivity.
    + rewrite (Z.min_r j) by lia.
      rewrite (substring_truncates s (Z.to_nat i) (Z.to_nat (j - i)))
        by (fold n; lia).
      f_equal. fold n. lia.
  - rewrite !Z.min_r by lia. rewrite Z.sub_diag. simpl.
    rewrite substring_zero_length.
    symmetry. apply substring_past_end. fold n. lia.
Qed.

(** ** [split_content] *)

(** The chunks are the windows of [max_length] characters at the multiples
    of [max_length], as many as the range has elements. *)
Lemma split_content_windows (content : string) (m : Z) :
  1 <= m ->
  split_content content m =
  Returns (map (fun k => substring (k * Z.to_nat m) (Z.to_nat m) content)
               (seq 0 (Z.to_nat (range_len 0 (len content) m)))).
Proof.
  intros Hm. unfold split_content, range.
  destruct (Z.eqb_spec m 0); [lia|].
  f_equal. rewrite map_map. apply map_ext. intros k.
  rewrite slice_substring by nia.
  f_equal; nia.
Qed.

Lemma concat_windows (s : string) (m n : nat) :
  String.concat "" (map (fun k => substring (k * m) m s) (seq 0 n))
  = substring 0 (n * m) s.
Proof.
  induction n as [|n IH].
  - simpl. symmetry. apply substring_zero_length.
  - rewrite seq_S, map_app. simpl map.
    assert (Happ : forall l x, String.concat "" (l ++ [x])
                               = String.concat "" l ++ x).
    { induction l as [|y l IHl]; intros x; simpl.
      - reflexivity.
      - destruct l as [|z l]; simpl in *.
        + reflexivity.
        + rewrite IHl. clear.
          induction y; simpl; [reflexivity | now f_equal]. }
    rewrite Happ, IH.
    replace (S n * m)%nat with (n * m + m)%nat by lia.
    symmetry. apply substring_prefix_app.
Qed.

Lemma nth_map_seq {A} (f : nat -> A) (n k : nat) (d : A) :
  (k < n)%nat -> nth k (map f (seq 0 n)) d = f k.
Proof.
  intros Hk.
  rewrite (nth_indep _ d (f 0%nat)) by (rewrite length_map, length_seq; exact Hk).
  rewrite map_nth, seq_nth by exact Hk. reflexivity.
Qed.

(** The number of chunks: none for the empty string, otherwise the
    length divided by [max_length] and rounded up. *)
Lemma chunk_count (L m : Z) :
  0 <= L -> 1 <= m ->
  range_len 0 L m = (L + m - 1) / m /\
  L <= range_len 0 L m * m < L + m.
Proof.
  intros HL Hm. unfold range_len.
  destruct (Z.ltb_spec 0 m); [|lia].
  destruct (Z.ltb_spec 0 L).
  - replace (L + m - 1) with (L - 0 - 1 + 1 * m) by lia.
    rewrite Z.div_add by lia. split; [reflexivity|].
    replace (L - 0 - 1) with (L - 1) by lia.
    pose proof (Z.div_mod (L - 1) m ltac:(lia)).
    pose proof (Z.mod_pos_bound (L - 1) m ltac:(lia)).
    nia.
  - assert (L = 0) by lia. subst L.
    rewrite Z.div_small by lia. lia.
Qed.

(** C7. For every content and every [max_length >= 1], [split_content]
    returns chunks whose concatenation, in order, is the content. *)
Theorem split_content_reassembles (content : string) (max_length : Z) :
  1 <= max_length ->
  exists chunks,
    split_content content max_length = Returns chunks /\
    String.concat "" chunks = content.
Proof.
  intros Hm. rewrite split_content_windows by assumption.
  eexists. split; [reflexivity|].
  rewrite concat_windows. apply substring_all.
  pose proof (chunk_count (len content) max_length) as [_ H]; unfold len in *;
    try lia.
Qed.

Lemma split_content_reassembles_witness :
  exists chunks,
    split_content "import os; os.system(cmd)" 10 = Returns chunks /\
    String.concat "" chunks = "import os; os.system(cmd)".
Proof.
  apply (split_content_reassembles "import os; os.system(cmd)" 10). lia.
Defined.

(** C8, as the claim states it, fails on the empty content: its length 0
    is at most [max_length], and there is no chunk rather than one. *)
Lemma split_content_empty_not_one_chunk :
  len "" <= 5000 /\ split_content "" 5000 <> Returns [""].
Proof.
  split; [vm_compute; discriminate | vm_compute; discriminate].
Qed.

(** C8, amended. For [max_length >= 1]: a content of length between 1 and
    [max_length] gives the one chunk equal to it; a longer content of
    length [L] gives [ceil(L / max_length)] chunks, the chunk number [k]
    being the window of the content at [k * max_length], so all but the
    last have length [max_length] and the last has at least one character
    and at most [max_length]. *)
Theorem split_content_chunks (content : string) (max_length : Z) :
  1 <= max_length ->
  (1 <= len content <= max_length ->
   split_content content max_length = Returns [content]) /\
  (max_length < len content ->
   exists chunks,
     split_content content max_length = Returns chunks /\
     Z.of_nat (List.length chunks)
     = (len content + max_length - 1) / max_length /\
     (forall k, (k < List.length chunks)%nat ->
        nth k chunks ""
        = substring (k * Z.to_nat max_length) (Z.to_nat max_length) content) /\
     (forall k, (S k < List.length chunks)%nat ->
        len (nth k chunks "") = max_length) /\
     1 <= len (last chunks "") <= max_length).
Proof.
  intros Hm.
  pose proof (chunk_count (len content) max_length
                ltac:(unfold len; lia) Hm) as [Hn Hcover].
  rewrite split_content_windows by assumption.
  set (m := Z.to_nat max_length) in *.
  set (n := Z.to_nat (range_len 0 (len content) max_length)) in *.
  assert (Hlen : String.length content = Z.to_nat (len content))
    by (unfold len; lia).
  assert (Hnth : forall k, (k < n)%nat ->
            nth k (map (fun k => substring (k * m) m content) (seq 0 n)) ""
            = substring (k * m) m content).
  { intros k Hk. now rewrite nth_map_seq. }
  split.
  - intros HL.
    assert (n = 1%nat) as -> by (subst n; nia).
    simpl. do 2 f_equal.
    apply substring_all. subst m. lia.
  - intros HL. eexists. split; [reflexivity|].
    rewrite length_map, length_seq.
    split; [subst n; lia|].
    split; [exact Hnth|].
    split.
    + intros k Hk. rewrite Hnth by lia.
      unfold len at 1. rewrite substring_length.
      subst m n. nia.
    + assert (Hpos : (0 < n)%nat) by (subst n; nia).
      destruct n as [|n'] eqn:En; [lia|].
      rewrite seq_S, map_app. simpl map. rewrite last_last.
      unfold len at 1 2. rewrite substring_length.
      simpl Nat.add. subst m. nia.
Qed.

Lemma split_content_chunks_witness :
  split_content "abc" 3 = Returns ["abc"] /\
  exists chunks,
    split_content "abcdefg" 3 = Returns chunks /\
    Z.of_nat (List.length chunks) = (len "abcdefg" + 3 - 1) / 3 /\
    (forall k, (k < List.length chunks)%nat ->
       nth k chunks "" = substring (k * Z.to_nat 3) (Z.to_nat 3) "abcdefg") /\
    (forall k, (S k < List.length chunks)%nat -> len (nth k chunks "") = 3) /\
    1 <= len (last chunks "") <= 3.
Proof.
  split.
  - apply (proj1 (split_content_chunks "abc" 3 ltac:(lia))).
    unfold len; simpl; lia.
  - apply (proj2 (split_content_chunks "abcdefg" 3 ltac:(lia))).
    unfold len; simpl; lia.
Defined.

(** C10. For every [max_length >= 1], [split_content] of the empty string
    returns the empty list: no chunk, and not one empty chunk. *)
Theorem split_content_empty (max_length : Z) :
  1 <= max_length -> split_content "" max_length = Returns [].
Proof.
  intros Hm. rewrite split_content_windows by assumption.
  replace (range_len 0 (len "") max_length) with 0; [reflexivity|].
  unfold range_len, len. simpl.
  destruct (Z.ltb_spec 0 max_length); reflexivity.
Qed.

Lemma split_content_empty_witness : split_content "" 5000 = Returns [].
Proof. apply (split_content_empty 5000). lia. Defined.

(** ** Traces *)

Lemma pick_app {A} (f : event -> option A) (t1 t2 : list event) :
  pick f (t1 ++ t2) = (pick f t1 ++ pick f t2)%list.
Proof.
  induction t1 as [|ev t1 IH]; simpl; [reflexivity|].
  destruct (f ev); simpl; now rewrite IH.
Qed.

Lemma sleeps_app (t1 t2 : list event) :
  sleeps (t1 ++ t2) = (sleeps t1 ++ sleeps t2)%list.
Proof. apply pick_app. Qed.

Lemma attempts_app (t1 t2 : list event) :
  attempts (t1 ++ t2) = (attempts t1 + attempts t2)%nat.
Proof. unfold attempts. now rewrite pick_app, length_app. Qed.

Lemma limiter_passes_app (t1 t2 : list event) :
  limiter_passes (t1 ++ t2) = (limiter_passes t1 ++ limiter_passes t2)%list.
Proof. apply pick_app. Qed.

Lemma reports_app (t1 t2 : list event) :
  reports (t1 ++ t2) = (reports t1 ++ reports t2)%list.
Proof. apply pick_app. Qed.

(** ** The retry wrapper *)

(** What one run of the loop of [retry] does on an operation given by its
    outcomes: it makes [retries + 1] calls, returns the outcome of the last
    one as it is, and sleeps before each further call, the delay growing
    by the factor [backoff]; it does not go through the rate limiter. *)
Lemma retry_loop_invoke {A} (exceptions : exn -> bool) (backoff : Z)
  (outcomes : nat -> outcome A) (n : nat) :
  0 <= backoff ->
  forall (delay : Z) (w : world),
    0 <= delay ->
    let i := retries exceptions outcomes (requests w) n in
    exists w' new,
      retry_loop exceptions backoff (invoke Attempt outcomes) n delay w
      = (of_outcome (outcomes (requests w + i)%nat), w') /\
      requests w' = (requests w + i + 1)%nat /\
      trace w' = (trace w ++ new)%list /\
      attempts new = (i + 1)%nat /\
      sleeps new = map (fun k => delay * backoff ^ Z.of_nat k) (seq 0 i) /\
      limiter_passes new = [].
Proof.
  intros Hb. induction n as [|n IH]; intros delay w Hd; simpl.
  - exists (count_request (emit Attempt w)), [Attempt].
    rewrite Nat.add_0_r. repeat split; simpl; lia.
  - unfold try_except, invoke at 1.
    destruct (outcomes (requests w)) as [a|e] eqn:Eo; simpl.
    + exists (count_request (emit Attempt w)), [Attempt].
      rewrite Nat.add_0_r, Eo. repeat split; simpl; lia.
    + destruct (exceptions e) eqn:Ee.
      * unfold bind at 1, log. unfold bind at 1, sleep.
        destruct (Z.ltb_spec delay 0) as [|_]; [lia|].
        set (w1 := emit (Sleep delay) (advance delay (emit (Log WARNING _) _))).
        assert (Hr : requests w1 = S (requests w)) by reflexivity.
        destruct (IH (delay * backoff) w1 ltac:(nia))
          as (w' & new & Hrun & Hreq & Htr & Hatt & Hsl & Hlim).
        rewrite Hr in *.
        exists w',
          ([Attempt; Log WARNING (exn_str e ++ ", retrying in "
                                  ++ str_of_int delay ++ " seconds...");
            Sleep delay] ++ new)%list.
        rewrite Hrun.
        replace (requests w + S (retries exceptions outcomes (S (requests w)) n))%nat
          with (S (requests w) + retries exceptions outcomes (S (requests w)) n)%nat
          by lia.
        split; [reflexivity|].
        split; [lia|].
        split; [rewrite Htr; subst w1; simpl; now rewrite <- !app_assoc|].
        split; [rewrite attempts_app, Hatt; reflexivity|].
        split.
        -- rewrite sleeps_app, Hsl. simpl.
           rewrite Z.mul_1_r. f_equal.
           rewrite <- seq_shift, map_map. apply map_ext. intros k.
           rewrite Nat2Z.inj_succ, Z.pow_succ_r by lia. ring.
        -- rewrite limiter_passes_app, Hlim. reflexivity.
      * exists (count_request (emit Attempt w)), [Attempt].
        rewrite Nat.add_0_r, Eo. repeat split; simpl; lia.
Qed.

(** When the attempts before number [i] fail with retried exceptions and
    attempt [i] is the last allowed one or does not, [i] retries are made. *)
Lemma retries_exact {A} (exceptions : exn -> bool)
  (outcomes : nat -> outcome A) (i : nat) :
  forall (start n : nat),
    (i <= n)%nat ->
    (forall k, (k < i)%nat ->
       exists e, outcomes (start + k)%nat = Raises e /\ exceptions e = true) ->
    (i = n \/
     forall e, outcomes (start + i)%nat = Raises e -> exceptions e = false) ->
    retries exceptions outcomes start n = i.
Proof.
  induction i as [|i IH]; intros start n Hle Hfail Hlast.
  - destruct n as [|n]; [reflexivity|]. simpl.
    destruct Hlast as [|Hlast]; [discriminate|].
    rewrite Nat.add_0_r in Hlast.
    destruct (outcomes start) as [a|e]; [reflexivity|].
    now rewrite (Hlast e eq_refl).
  - destruct n as [|n]; [lia|]. simpl.
    destruct (Hfail 0%nat ltac:(lia)) as (e & He & Hexc).
    rewrite Nat.add_0_r in He. rewrite He, Hexc. f_equal.
    apply IH.
    + lia.
    + intros k Hk. destruct (Hfail (S k) ltac:(lia)) as (e' & He' & Hexc').
      exists e'. split; [|exact Hexc'].
      now replace (S start + k)%nat with (start + S k)%nat by lia.
    + destruct Hlast as [Hn|Hlast]; [left; lia|right].
      intros e' He'. apply Hlast.
      now replace (start + S i)%nat with (S start + i)%nat by lia.
Qed.

(** C6. The wrapper [retry(exceptions, tries, delay, backoff)] with
    [tries >= 1] and a delay and a backoff that are not negative, on an
    operation whose attempts before number [i] (counted from 0, with
    [i < tries]) raise exceptions among [exceptions]: when attempt [i]
    is the last of the [tries] allowed ones, or returns, or raises an
    exception not among [exceptions], the wrapper makes exactly these
    [i + 1] attempts (at most [tries]), gives the outcome of attempt [i]
    as it is (its value returned, its exception raised), and has slept
    [delay], [delay * backoff], ..., [delay * backoff ^ (i - 1)] between
    the attempts. The default of [tries] is 3. *)
Theorem retry_attempts_and_backoff {A} (exceptions : exn -> bool)
  (tries delay backoff : Z) (outcomes : nat -> outcome A) (w : world) (i : nat) :
  1 <= tries -> 0 <= delay -> 0 <= backoff ->
  Z.of_nat i < tries ->
  (forall k, (k < i)%nat ->
     exists e, outcomes (requests w + k)%nat = Raises e /\ exceptions e = true) ->
  (Z.of_nat i = tries - 1 \/
   forall e, outcomes (requests w + i)%nat = Raises e -> exceptions e = false) ->
  default_tries = 3 /\
  exists w' new,
    retry exceptions tries delay backoff (invoke Attempt outcomes) w
    = (of_outcome (outcomes (requests w + i)%nat), w') /\
    trace w' = (trace w ++ new)%list /\
    attempts new = (i + 1)%nat /\
    Z.of_nat (attempts new) <= tries /\
    sleeps new = map (fun k => delay * backoff ^ Z.of_nat k) (seq 0 i).
Proof.
  intros Ht Hd Hb Hi Hfail Hlast. split; [reflexivity|].
  unfold retry.
  assert (Hret : retries exceptions outcomes (requests w) (Z.to_nat (tries - 1))
                 = i).
  { apply retries_exact; [lia | exact Hfail |].
    destruct Hlast as [Hl|Hl]; [left; lia | right; exact Hl]. }
  destruct (retry_loop_invoke exceptions backoff outcomes
              (Z.to_nat (tries - 1)) Hb delay w Hd)
    as (w' & new & Hrun & _ & Htr & Hatt & Hsl & _).
  rewrite Hret in *.
  exists w', new. repeat split; try assumption. lia.
Qed.

Lemma retry_attempts_and_backoff_witness :
  default_tries = 3 /\
  exists w' new,
    retry is_network default_tries default_delay default_backoff
          (invoke Attempt flaky) w0
    = (Ret "ok", w') /\
    trace w' = (trace w0 ++ new)%list /\
    attempts new = 3%nat /\
    Z.of_nat (attempts new) <= default_tries /\
    sleeps new = [1; 2].
Proof.
  apply (retry_attempts_and_backoff is_network default_tries default_delay
           default_backoff flaky w0 2).
  - unfold default_tries; lia.
  - unfold default_delay; lia.
  - unfold default_backoff; lia.
  - unfold default_tries; lia.
  - intros k Hk. exists (ConnectionError "connection reset").
    destruct k as [|[|k]]; [split; reflexivity | split; reflexivity | lia].
  - left. reflexivity.
Defined.

(** An exception outside [exceptions] ends the loop at once. *)
Example retry_other_exception :
  retry is_network 3 1 2
        (invoke (A := string) Attempt
                (fun _ => Raises (ValueError "bad request"))) w0
  = (Raise (ValueError "bad request"),
     World 0 0 0 0 1 [Attempt]).
Proof. reflexivity. Qed.

(** An operation that returns is called once, whatever the wrapper. *)
Lemma retry_loop_returns {A} (exceptions : exn -> bool) (backoff : Z)
  (func : M A) (n : nat) (delay : Z) (w : world) (a : A) :
  fst (func w) = Ret a ->
  retry_loop exceptions backoff func n delay w = func w.
Proof.
  intros H. destruct n as [|n]; simpl; [reflexivity|].
  unfold try_except. destruct (func w) as [[b|e|] w']; simpl in H;
    try discriminate; reflexivity.
Qed.

(** ** The rate limiter *)

Lemma clamped_CALLS : Z.max 1 (Z.min (2 ^ 63 - 1) CALLS) = 5.
Proof. reflexivity. Qed.

(** A call through [sleep_and_retry] over [limits] starts the function
    once: at once when the limiter lets it through, and otherwise after
    sleeping for the rest of the period, which opens a new period. Two
    rounds of the loop are enough. *)
Lemma sleep_and_retry_limits {A} (func : M A) (fuel : nat) (w : world) :
  (2 <= fuel)%nat ->
  (forall w1 pr, fst (func w1) <> Raise (RateLimitException pr)) ->
  exists w1 pre,
    sleep_and_retry fuel (limits CALLS PERIOD func) w = func w1 /\
    trace w1 = (trace w ++ pre ++ [Limit true])%list /\
    requests w1 = requests w /\
    token_pos w1 = token_pos w /\
    (pre = [] \/ exists pr, 0 < pr /\ pre = [Limit false; Sleep pr]).
Proof.
  intros Hfuel Hfunc.
  assert (Hpass : forall k w1,
             try_except func
               (fun e => match e with
                         | RateLimitException period_remaining =>
                             Some (sleep period_remaining ;;;
                                   sleep_and_retry k (limits CALLS PERIOD func))
                         | _ => None
                         end) w1 = func w1).
  { intros k w1. unfold try_except. specialize (Hfunc w1).
    destruct (func w1) as [[a|e|] w']; try reflexivity.
    destruct e; try reflexivity. exfalso. eapply Hfunc. reflexivity. }
  destruct fuel as [|[|k]]; try lia.
  destruct w as [clk reset calls pos req tr].
  cbn [sleep_and_retry]. unfold try_except at 1. unfold limits at 1.
  rewrite clamped_CALLS. unfold PERIOD. cbn [clock last_reset num_calls].
  destruct (Z.leb_spec (1 - (clk - reset)) 0) as [Hp|Hp].
  - (* a new period *)
    cbn [set_limiter clock last_reset num_calls token_pos requests trace].
    destruct (Z.ltb_spec 5 (0 + 1)) as [|_]; [lia|].
    eexists _, []. split; [apply (Hpass (S k))|].
    repeat split. now left.
  - cbn [set_limiter clock last_reset num_calls token_pos requests trace].
    destruct (Z.ltb_spec 5 (calls + 1)) as [Hfull|Hroom].
    + (* the period is used up: sleep, then a new period *)
      unfold bind at 1, sleep at 1.
      destruct (Z.ltb_spec (1 - (clk - reset)) 0) as [|_]; [lia|].
      cbn [sleep_and_retry]. unfold try_except at 1. unfold limits at 1.
      rewrite clamped_CALLS. unfold PERIOD.
      cbn [emit advance set_limiter clock last_reset num_calls token_pos
           requests trace].
      destruct (Z.leb_spec (1 - (clk + (1 - (clk - reset)) - reset)) 0)
        as [_|]; [|lia].
      cbn [emit advance set_limiter clock last_reset num_calls token_pos
           requests trace].
      destruct (Z.ltb_spec 5 (0 + 1)) as [|_]; [lia|].
      eexists _, [Limit false; Sleep (1 - (clk - reset))].
      split; [apply (Hpass k)|].
      cbn [emit trace requests token_pos].
      repeat split; [simpl; now rewrite <- !app_assoc|].
      right. eexists. split; [|reflexivity]. lia.
    + eexists _, []. split; [apply (Hpass (S k))|].
      repeat split. now left.
Qed.

(** ** The decorators of [process_code] *)

Lemma retries_bound {A} (exceptions : exn -> bool) (outcomes : nat -> outcome A)
  (n : nat) : forall start, (retries exceptions outcomes start n <= n)%nat.
Proof.
  induction n as [|n IH]; intros start; simpl; [lia|].
  destruct (outcomes start) as [a|e]; [lia|].
  destruct (exceptions e); [|lia]. specialize (IH (S start)). lia.
Qed.

(** The decorators as they are written, on an operation that lets its
    exceptions out (which the body of [process_code] never does): an
    operation that fails twice with a connection error and then succeeds
    is attempted three times behind a single pass through the rate
    limiter, where the other layering gives each attempt its own pass. *)
Lemma retried_attempts_not_rate_limited :
  let code := trace (snd (process_code_decorators 2 (invoke Attempt flaky) w0)) in
  let spec := trace (snd (spec_order_decorators 2 (invoke Attempt flaky) w0)) in
  every_attempt_limited code = false /\
  attempts code = 3%nat /\
  limiter_passes code = [true] /\
  every_attempt_limited spec = true /\
  limiter_passes spec = [true; true; true].
Proof. repeat split. Qed.

(** The decorators as they are written, on an operation that does not
    itself raise [RateLimitException]: one invocation returns (two rounds
    of fuel are enough), is let through the rate limiter exactly once,
    before the first attempt, and makes after that between one and three
    attempts, none of which passes the limiter again. *)
Lemma rate_limit_wraps_retry {A} (outcomes : nat -> outcome A) (fuel : nat)
  (w : world) :
  (2 <= fuel)%nat ->
  (forall n pr, outcomes n <> Raises (RateLimitException pr)) ->
  exists w' pre new,
    process_code_decorators fuel (invoke Attempt outcomes) w
    = (of_outcome (outcomes (requests w + (attempts new - 1))%nat), w') /\
    trace w' = (trace w ++ pre ++ [Limit true] ++ new)%list /\
    attempts pre = 0%nat /\
    (limiter_passes pre = [] \/ limiter_passes pre = [false]) /\
    limiter_passes new = [] /\
    (1 <= attempts new <= 3)%nat.
Proof.
  intros Hfuel Hout.
  assert (Hb : 0 <= default_backoff) by (unfold default_backoff; lia).
  assert (Hd : 0 <= default_delay) by (unfold default_delay; lia).
  pose proof (fun w1 => retry_loop_invoke is_network default_backoff outcomes
                          (Z.to_nat (3 - 1)) Hb default_delay w1 Hd) as Hretry.
  destruct (sleep_and_retry_limits
              (retry is_network 3 default_delay default_backoff
                     (invoke Attempt outcomes)) fuel w Hfuel)
    as (w1 & pre & Hrun & Htr & Hreq & _ & Hpre).
  { intros w1 pr. unfold retry.
    destruct (Hretry w1) as (w' & new & Hr & _). rewrite Hr. simpl.
    destruct (outcomes _) as [a|e] eqn:Eo; simpl; [discriminate|].
    intros Heq. injection Heq as ->. exact (Hout _ _ Eo). }
  destruct (Hretry w1) as (w' & new & Hr & _ & Htr' & Hatt & _ & Hlim).
  pose proof (retries_bound is_network outcomes (Z.to_nat (3 - 1)) (requests w1))
    as Hle.
  change (Z.to_nat (3 - 1)) with 2%nat in *.
  exists w', pre, new.
  unfold process_code_decorators. rewrite Hrun. unfold retry.
  change (Z.to_nat (3 - 1)) with 2%nat. rewrite Hr, Hatt, Hreq.
  replace (retries is_network outcomes (requests w) 2 + 1 - 1)%nat
    with (retries is_network outcomes (requests w) 2) by lia.
  split; [reflexivity|].
  split; [rewrite Htr', Htr; now rewrite <- !app_assoc|].
  rewrite Hreq in Hle.
  destruct Hpre as [->|(pr & _ & ->)].
  - repeat split; try assumption; try lia. now left.
  - repeat split; try assumption; try lia. now right.
Qed.

Lemma rate_limit_wraps_retry_witness :
  exists w' pre new,
    process_code_decorators 2 (invoke Attempt flaky) w0
    = (of_outcome (flaky (requests w0 + (attempts new - 1))%nat), w') /\
    trace w' = (trace w0 ++ pre ++ [Limit true] ++ new)%list /\
    attempts pre = 0%nat /\
    (limiter_passes pre = [] \/ limiter_passes pre = [false]) /\
    limiter_passes new = [] /\
    (1 <= attempts new <= 3)%nat.
Proof.
  apply (rate_limit_wraps_retry flaky 2 w0).
  - lia.
  - intros n pr. destruct n as [|[|n]]; simpl; discriminate.
Defined.

(** ** [process_code] *)

(** The body makes one request and turns an exception of the request into
    a string. *)
Lemma process_code_body_run (E : Env) (self : CodeAnalyzer)
  (file_path model_token content : string) (w : world) :
  exists w' new,
    process_code_body E self file_path model_token content w
    = (Ret (response_text
              (chat_completion E (requests w) model_token content)), w') /\
    trace w' = (trace w ++ new)%list /\
    reports new = [] /\
    token_pos w' = token_pos w /\
    requests w' = S (requests w).
Proof.
  destruct w as [clk reset calls pos req tr].
  unfold process_code_body, try_except, bind, log, invoke, response_text.
  cbn [emit count_request clock last_reset num_calls token_pos requests trace].
  destruct (chat_completion E req model_token content) as [text|e];
    cbn [of_outcome].
  - eexists _, [_; _]. split; [reflexivity|].
    cbn [emit count_request trace token_pos requests].
    rewrite <- app_assoc. repeat split.
  - destruct (is_network e); unfold ret;
      cbn [emit count_request clock last_reset num_calls token_pos requests
           trace];
      (eexists _, [_; _; _]; split; [reflexivity|]);
      cbn [emit count_request trace token_pos requests];
      rewrite <- !app_assoc; repeat split.
Qed.

Lemma process_code_run (E : Env) (fuel : nat) (self : CodeAnalyzer)
  (file_path model_token content : string) (w : world) :
  (2 <= fuel)%nat ->
  exists w' new,
    process_code E fuel self file_path model_token content w
    = (Ret (response_text
              (chat_completion E (requests w) model_token content)), w') /\
    trace w' = (trace w ++ new)%list /\
    reports new = [] /\
    token_pos w' = token_pos w /\
    requests w' = S (requests w).
Proof.
  intros Hfuel.
  set (body := process_code_body E self file_path model_token content).
  assert (Hretry : forall w1,
             retry is_network 3 default_delay default_backoff body w1 = body w1).
  { intros w1. unfold retry.
    destruct (process_code_body_run E self file_path model_token content w1)
      as (w' & new & Hb & _).
    eapply retry_loop_returns. fold body in Hb. rewrite Hb. reflexivity. }
  destruct (sleep_and_retry_limits
              (retry is_network 3 default_delay default_backoff body)
              fuel w Hfuel)
    as (w1 & pre & Hrun & Htr & Hreq & Hpos & Hpre).
  { intros w1 pr. rewrite Hretry.
    destruct (process_code_body_run E self file_path model_token content w1)
      as (w' & new & Hb & _).
    fold body in Hb. rewrite Hb. discriminate. }
  destruct (process_code_body_run E self file_path model_token content w1)
    as (w' & new & Hb & Htr' & Hrep & Hpos' & Hreq').
  exists w', (pre ++ [Limit true] ++ new)%list.
  unfold process_code. fold body. unfold process_code_decorators.
  rewrite Hrun, Hretry. fold body in Hb. rewrite Hb, Hreq.
  split; [reflexivity|].
  split; [rewrite Htr', Htr; now rewrite <- !app_assoc|].
  split.
  { rewrite !reports_app, Hrep.
    destruct Hpre as [->|(pr & _ & ->)]; reflexivity. }
  split; lia.
Qed.

(** C4. [process_code] never lets an exception out: every invocation
    returns a string (two rounds of fuel are enough), after one request.
    The string is the answer when the request returns, the text
    ["Network error: ..."] when it raises an HTTP error, a connection error
    or a timeout, and the text ["Error: ..."] when it raises anything
    else. *)
Theorem process_code_never_raises (E : Env) (fuel : nat) (self : CodeAnalyzer)
  (file_path model_token content : string) (w : world) :
  (2 <= fuel)%nat ->
  exists s w',
    process_code E fuel self file_path model_token content w = (Ret s, w') /\
    requests w' = S (requests w) /\
    (forall text,
       chat_completion E (requests w) model_token content = Returns text ->
       s = text) /\
    (forall e,
       chat_completion E (requests w) model_token content = Raises e ->
       is_network e = true -> s = "Network error: " ++ exn_str e) /\
    (forall e,
       chat_completion E (requests w) model_token content = Raises e ->
       is_network e = false -> s = "Error: " ++ exn_str e).
Proof.
  intros Hfuel.
  destruct (process_code_run E fuel self file_path model_token content w Hfuel)
    as (w' & new & Hrun & _ & _ & _ & Hreq).
  eexists _, w'. split; [exact Hrun|]. split; [exact Hreq|].
  unfold response_text.
  repeat split; intros ? ->; try intros ->; reflexivity.
Qed.

Lemma process_code_never_raises_witness :
  exists s w',
    process_code (project_env ["m1"] [Raises (Timeout "timed out")]) 2
                 (analyzer_of (project_env ["m1"] [])) "proj/a.py" "m1"
                 "eval(input())" w0
    = (Ret s, w') /\
    s = "Network error: timed out".
Proof.
  destruct (process_code_never_raises
              (project_env ["m1"] [Raises (Timeout "timed out")]) 2
              (analyzer_of (project_env ["m1"] [])) "proj/a.py" "m1"
              "eval(input())" w0 ltac:(lia))
    as (s & w' & Hrun & _ & _ & Hnet & _).
  exists s, w'. split; [exact Hrun|].
  apply (Hnet (Timeout "timed out")); reflexivity.
Defined.

(** ** [parse_issues] *)

(** A response that does not decode gives no findings. *)
Lemma parse_issues_decode_error (E : Env) (response file_path msg : string)
  (w : world) :
  json_loads E response = Raises (JSONDecodeError msg) ->
  parse_issues E response file_path w
  = (Ret (PList []),
     emit (Log ERROR ("Failed to parse JSON response for " ++ file_path)) w).
Proof.
  intros H. unfold parse_issues, try_except, bind, lift. rewrite H. reflexivity.
Qed.

(** C5 fails on the code for a response that decodes to something other
    than an object: [parse_issues] catches [JSONDecodeError] only, and
    the attribute [get] that is missing on such a value raises
    [AttributeError], which goes out to the caller. *)
Theorem parse_issues_raises_on_non_object (E : Env)
  (response file_path : string) (w : world) (decoded : pyval) :
  json_loads E response = Returns decoded ->
  (forall d, decoded <> PDict d) ->
  parse_issues E response file_path w
  = (Raise (AttributeError
              ("'" ++ type_name decoded ++ "' object has no attribute 'get'")),
     w).
Proof.
  intros Hdec Hno.
  unfold parse_issues, try_except, bind, lift. rewrite Hdec.
  destruct decoded; try reflexivity.
  exfalso. eapply Hno. reflexivity.
Qed.

Lemma parse_issues_raises_on_non_object_witness :
  parse_issues (project_env ["m1"] []) "[]" "proj/a.py" w0
  = (Raise (AttributeError "'list' object has no attribute 'get'"), w0).
Proof.
  apply (parse_issues_raises_on_non_object (project_env ["m1"] []) "[]"
           "proj/a.py" w0 (PList [])).
  - reflexivity.
  - intros d. discriminate.
Defined.

(** C9. For a response that decodes to an object, [parse_issues] returns
    the value under the key ["issues"] as it was decoded, whatever it is:
    the findings and their fields are not looked at and keep their order.
    Without that key it returns the empty list. *)
Theorem parse_issues_returns_issues (E : Env) (response file_path : string)
  (w : world) (d : list (string * pyval)) :
  json_loads E response = Returns (PDict d) ->
  (forall issues,
     dict_lookup d "issues" = Some issues ->
     fst (parse_issues E response file_path w) = Ret issues) /\
  (dict_lookup d "issues" = None ->
   fst (parse_issues E response file_path w) = Ret (PList [])).
Proof.
  intros Hdec.
  unfold parse_issues, try_except, bind, lift, py_get. rewrite Hdec.
  cbn [of_outcome].
  split.
  - intros issues ->. destruct (truthy issues); reflexivity.
  - intros ->. reflexivity.
Qed.

Lemma parse_issues_returns_issues_witness :
  fst (parse_issues (project_env ["m1"] []) two_issues "proj/a.py" w0)
  = Ret (PList [PDict [("severity", PStr "HIGH");
                       ("description", PStr "eval of user input");
                       ("line", PInt 1)];
                PDict [("severity", PStr "BOGUS");
                       ("description", PStr "x");
                       ("line", PInt (-3))]]) /\
  fst (parse_issues (project_env ["m1"] []) (json_text "{'status': 'ok'}") "proj/a.py"
                    w0)
  = Ret (PList []).
Proof.
  split.
  - refine (proj1 (parse_issues_returns_issues (project_env ["m1"] [])
                     two_issues "proj/a.py" w0 _ _) _ _); reflexivity.
  - refine (proj2 (parse_issues_returns_issues (project_env ["m1"] [])
                     (json_text "{'status': 'ok'}") "proj/a.py" w0 _ _) _);
      reflexivity.
Defined.

(** ** Construction and the token cycle *)

(** The tokens come round in order and start again after the last. *)
Example token_rotation :
  let self := analyzer_of (project_env ["m1"; "m2"] []) in
  fst ((t1 <- get_next_token self ;;
        t2 <- get_next_token self ;;
        t3 <- get_next_token self ;;
        ret [t1; t2; t3]) w0)
  = Ret ["m1"; "m2"; "m1"].
Proof. reflexivity. Qed.

(** C2, as the claim states it, fails: with no token the construction
    returns an analyzer. *)
Lemma construction_without_tokens_succeeds :
  tokens (project_env [] []) = [] /\
  fst (__init__ (project_env [] []) "proj" default_max_retries default_timeout
                w0)
  = Ret (analyzer_of (project_env [] [])).
Proof. split; reflexivity. Qed.

(** C2, amended. With an empty list of tokens the construction of the
    analyzer succeeds whenever the client can be built: an instance is
    created, and the failure is left to [get_next_token], every call of
    which raises [StopIteration]. *)
Theorem empty_tokens_fail_at_get_next_token (E : Env) (directory : string)
  (max_retries timeout : Z) (c : GroqClient) (w : world) :
  tokens E = [] ->
  Groq E max_retries timeout = Returns c ->
  exists self w',
    __init__ E directory max_retries timeout w = (Ret self, w') /\
    forall w1, get_next_token self w1 = (Raise StopIteration, w1).
Proof.
  intros Htok Hgroq. unfold __init__. rewrite Hgroq, Htok.
  eexists _, _. split; [reflexivity|].
  intros w1. reflexivity.
Qed.

Lemma empty_tokens_fail_at_get_next_token_witness :
  exists self w',
    __init__ (project_env [] []) "proj" default_max_retries default_timeout w0
    = (Ret self, w') /\
    forall w1, get_next_token self w1 = (Raise StopIteration, w1).
Proof.
  apply (empty_tokens_fail_at_get_next_token (project_env [] []) "proj"
           default_max_retries default_timeout
           {| max_retries := default_max_retries; timeout := default_timeout |}
           w0);
    reflexivity.
Defined.

(** ** [analyze] *)

Lemma read_file_outcome (E : Env) (file_path : string) (w : world) :
  read_file E file_path w = (of_outcome (read_outcome E file_path), w).
Proof.
  unfold read_file, read_outcome, try_except, lift.
  destruct (read_text E "utf-8" file_path) as [text|e]; [reflexivity|].
  destruct e; reflexivity.
Qed.

Section Runs.

Variable E : Env.
Variable fuel : nat.
Variable self : CodeAnalyzer.

Hypothesis enough_fuel : (2 <= fuel)%nat.
Hypothesis some_token : token_cycle self <> [].
Hypothesis answers_well_shaped :
  forall n model content,
    well_shaped E (response_text (chat_completion E n model content)) = true.

Lemma quiet_ret {A} (a : A) : quiet (ret a).
Proof.
  intros w. exists a, w, []. repeat split. now rewrite app_nil_r.
Qed.

(** A well shaped answer parses to something that can be iterated. *)
Lemma parse_issues_well_shaped (response file_path : string) (w : world) :
  well_shaped E response = true ->
  exists issues items w' new,
    parse_issues E response file_path w = (Ret issues, w') /\
    py_iter issues = Returns items /\
    trace w' = (trace w ++ new)%list /\
    reports new = [].
Proof.
  unfold well_shaped. intros Hshape.
  destruct (json_loads E response) as [decoded|e] eqn:Hdec.
  - destruct decoded; try discriminate.
    unfold parse_issues, try_except, bind, lift, py_get. rewrite Hdec.
    cbn [of_outcome].
    destruct (dict_lookup d "issues") as [issues|].
    + destruct (py_iter issues) as [items|] eqn:Hit; [|discriminate].
      destruct (truthy issues).
      * exists issues, items, w, []. repeat split; try assumption.
        now rewrite app_nil_r.
      * eexists issues, items, _, [_]. repeat split; try assumption.
    + eexists (PList []), [], _, [_]. repeat split.
  - destruct e; try discriminate.
    rewrite (parse_issues_decode_error E response file_path msg w Hdec).
    eexists (PList []), [], _, [_]. repeat split.
Qed.

Lemma quiet_collect_loop (file_path token : string) (contents : list string) :
  forall summaries,
    quiet (collect_loop E fuel self file_path token contents summaries).
Proof.
  induction contents as [|chunk rest IH]; intros summaries; simpl.
  - apply quiet_ret.
  - intros w.
    destruct (process_code_run E fuel self file_path token chunk w
                enough_fuel) as (w1 & new1 & Hrun1 & Htr1 & Hrep1 & _).
    destruct (parse_issues_well_shaped _ file_path w1
                (answers_well_shaped (requests w) token chunk))
      as (issues & items & w2 & new2 & Hrun2 & Hit & Htr2 & Hrep2).
    destruct (IH (summaries ++ items)%list w2)
      as (out & w3 & new3 & Hrun3 & Htr3 & Hrep3).
    exists out, w3, (new1 ++ new2 ++ new3)%list.
    unfold bind, lift. rewrite Hrun1, Hrun2, Hit. cbn [of_outcome].
    rewrite Hrun3.
    split; [reflexivity|].
    split; [rewrite Htr3, Htr2, Htr1; now rewrite <- !app_assoc|].
    now rewrite !reports_app, Hrep1, Hrep2, Hrep3.
Qed.

(** The chunks [analyze] makes of a content. *)
Lemma chunks_of_content (content : string) :
  exists contents,
    (if 5000 <? len content
     then lift (split_content content default_max_length)
     else ret [content])
    = ret contents.
Proof.
  destruct (5000 <? len content).
  - rewrite split_content_windows by (unfold default_max_length; lia).
    eexists. reflexivity.
  - eexists. reflexivity.
Qed.

(** One file name: a report when the name is supported and the file can
    be read, and nothing otherwise; the loop goes on in either case. *)
Lemma analyze_file_reports (root filename : string) (w : world) :
  exists w' new,
    analyze_file E fuel self root filename w = (Ret tt, w') /\
    trace w' = (trace w ++ new)%list /\
    map fst (reports new) = eligible_paths E [(root, [filename])].
Proof.
  unfold analyze_file, eligible_paths. cbn [flat_map fst snd].
  rewrite !app_nil_r.
  destruct (is_supported_file filename); cbn [negb].
  - set (file_path := path_join root filename).
    unfold bind at 1, get_next_token.
    destruct (token_cycle self) as [|t ts] eqn:Htok; [contradiction|].
    unfold bind at 1, log.
    unfold bind at 1, try_except, bind at 1.
    rewrite read_file_outcome.
    destruct (read_outcome E file_path) as [content|e]; cbn [of_outcome].
    + unfold ret at 1.
      destruct (chunks_of_content content) as (contents & ->).
      unfold bind at 1, ret at 1.
      match goal with
      | |- context [collect_issues E fuel self file_path ?tok contents] =>
          destruct (quiet_collect_loop file_path tok contents []
                      (emit (Log INFO ("Analyzing file: " ++ file_path))
                            (set_token_pos (S (token_pos w)) w)))
            as (out & w1 & new1 & Hrun & Htr & Hrep)
      end.
      unfold bind, collect_issues. rewrite Hrun.
      unfold add_file_summary.
      eexists _, (_ :: new1 ++ [Report file_path out])%list.
      split; [reflexivity|].
      split.
      * cbn [emit trace]. rewrite Htr. cbn [emit set_token_pos trace].
        now rewrite <- !app_assoc.
      * change (reports (?x :: ?l)) with (reports ([x] ++ l)).
        rewrite !reports_app, Hrep. reflexivity.
    + unfold bind at 1, log, ret.
      eexists _, [_; _]. split; [reflexivity|].
      split; [cbn [emit set_token_pos trace]; now rewrite <- !app_assoc|].
      reflexivity.
  - exists w, []. repeat split. now rewrite app_nil_r.
Qed.

Lemma eligible_paths_app (l1 l2 : list (string * list string)) :
  eligible_paths E (l1 ++ l2)
  = (eligible_paths E l1 ++ eligible_paths E l2)%list.
Proof. unfold eligible_paths. apply flat_map_app. Qed.

Lemma inner_loop_reports (root : string) (files : list string) :
  forall w, exists w' new,
    for_each files (fun filename => analyze_file E fuel self root filename) w
    = (Ret tt, w') /\
    trace w' = (trace w ++ new)%list /\
    map fst (reports new) = eligible_paths E [(root, files)].
Proof.
  induction files as [|filename files IH]; intros w; cbn [for_each].
  - exists w, []. repeat split. now rewrite app_nil_r.
  - destruct (analyze_file_reports root filename w)
      as (w1 & new1 & Hrun1 & Htr1 & Hrep1).
    destruct (IH w1) as (w2 & new2 & Hrun2 & Htr2 & Hrep2).
    exists w2, (new1 ++ new2)%list.
    unfold bind. rewrite Hrun1, Hrun2.
    split; [reflexivity|].
    split; [rewrite Htr2, Htr1; now rewrite app_assoc|].
    rewrite reports_app, map_app, Hrep1, Hrep2.
    unfold eligible_paths. cbn [flat_map fst snd]. now rewrite !app_nil_r.
Qed.

Lemma outer_loop_reports (entries : list (string * list string)) :
  forall w, exists w' new,
    for_each entries (fun entry =>
      for_each (snd entry) (fun filename =>
        analyze_file E fuel self (fst entry) filename)) w
    = (Ret tt, w') /\
    trace w' = (trace w ++ new)%list /\
    map fst (reports new) = eligible_paths E entries.
Proof.
  induction entries as [|[root files] entries IH]; intros w;
    cbn [for_each fst snd].
  - exists w, []. repeat split. now rewrite app_nil_r.
  - destruct (inner_loop_reports root files w)
      as (w1 & new1 & Hrun1 & Htr1 & Hrep1).
    destruct (IH w1) as (w2 & new2 & Hrun2 & Htr2 & Hrep2).
    exists w2, (new1 ++ new2)%list.
    unfold bind. rewrite Hrun1, Hrun2.
    split; [reflexivity|].
    split; [rewrite Htr2, Htr1; now rewrite app_assoc|].
    rewrite reports_app, map_app, Hrep1, Hrep2.
    change ((root, files) :: entries) with ([(root, files)] ++ entries)%list.
    now rewrite eligible_paths_app.
Qed.

(** With at least one token and answers that are all well shaped, a
    run of [analyze] returns and has called [add_file_summary] once for
    each supported file that can be read, in the order of the walk, and
    for no other file: a file that cannot be read is passed over and the
    walk goes on. *)
Lemma analyze_reports_eligible_files (w : world) :
  exists w' new,
    analyze E fuel self w = (Ret tt, w') /\
    trace w' = (trace w ++ new)%list /\
    map fst (reports new) = eligible_paths E (os_walk E (directory self)).
Proof. apply outer_loop_reports. Qed.

End Runs.

(** The conditions of the lemma hold for the project with one token and
    answers that are objects or do not decode. *)
Example analyze_reports_project :
  let E := project_env ["m1"] [Returns two_issues; Returns "oops"] in
  exists w' new,
    analyze E 2 (analyzer_of E) w0 = (Ret tt, w') /\
    trace w' = (trace w0 ++ new)%list /\
    map fst (reports new) = ["proj/a.py"; "proj/b.py"].
Proof.
  apply (analyze_reports_eligible_files
           (project_env ["m1"] [Returns two_issues; Returns "oops"]) 2
           (analyzer_of (project_env ["m1"] []))).
  - lia.
  - discriminate.
  - intros [|[|[|n]]] model content; reflexivity.
Qed.

(** A run in which every answer is an object: one report for each
    supported file that can be read ([b.py] through its second encoding),
    none for the text file and none for the file that cannot be read,
    after which the run goes on. *)
Example analyze_project :
  let E := project_env ["m1"; "m2"] [Returns two_issues; Returns "oops"] in
  let run := analyze E 2 (analyzer_of E) w0 in
  fst run = Ret tt /\
  map fst (reports (trace (snd run))) = ["proj/a.py"; "proj/b.py"].
Proof. split; reflexivity. Qed.

(** C1 fails on the code when an answer decodes to something other than
    an object: [a.py] and [b.py] are supported and can be read, the first
    answer is the JSON array [[]], and the run ends with [AttributeError]
    without a call of [add_file_summary] for either file. *)
Theorem analyze_aborts_on_non_object_response :
  let E := project_env ["m1"; "m2"] [Returns "[]"] in
  let run := analyze E 2 (analyzer_of E) w0 in
  is_supported_file "a.py" = true /\
  fst (read_file E "proj/a.py" w0) = Ret "eval(input())" /\
  is_supported_file "b.py" = true /\
  fst (read_file E "proj/b.py" w0) = Ret "password = input()" /\
  fst run = Raise (AttributeError "'list' object has no attribute 'get'") /\
  reports (trace (snd run)) = [].
Proof. repeat split. Qed.

(** * Further properties of the code *)

(** ** The token cycle *)

(** X1. With [k >= 1] tokens, [n] calls of [get_next_token] in a row,
    starting when the cycle has given [p] tokens, return the tokens at the
    positions [p mod k], [(p + 1) mod k], ..., [(p + n - 1) mod k] of the
    list: the order of the list, starting again after the last token. *)
Theorem get_next_token_round_robin (self : CodeAnalyzer) (n : nat) :
  token_cycle self <> [] ->
  forall w, exists w',
    next_tokens self n w
    = (Ret (map (fun i => nth ((token_pos w + i) mod
                                  List.length (token_cycle self))%nat
                              (token_cycle self) "")
                (seq 0 n)), w') /\
    token_pos w' = (token_pos w + n)%nat.
Proof.
  intros Hne. induction n as [|n IH]; intros w.
  - exists w. split; [reflexivity | simpl; lia].
  - cbn [next_tokens]. unfold bind at 1, get_next_token.
    destruct (token_cycle self) as [|t ts] eqn:Htok; [contradiction|].
    rewrite <- Htok in *.
    destruct (IH (set_token_pos (S (token_pos w)) w)) as (w' & Hrun & Hpos).
    exists w'. unfold bind at 1. rewrite Hrun. unfold ret.
    split.
    + f_equal. f_equal. cbn [seq map]. f_equal.
      * rewrite Nat.add_0_r. apply nth_indep.
        apply Nat.mod_upper_bound. rewrite Htok. discriminate.
      * rewrite <- seq_shift, map_map. apply map_ext. intros i.
        cbn [set_token_pos token_pos]. f_equal. f_equal. lia.
    + rewrite Hpos. cbn [set_token_pos token_pos]. lia.
Qed.

Lemma get_next_token_round_robin_witness :
  exists w',
    next_tokens (analyzer_of (project_env ["m1"; "m2"; "m3"] [])) 4 w0
    = (Ret ["m1"; "m2"; "m3"; "m1"], w') /\
    token_pos w' = 4%nat.
Proof.
  apply (get_next_token_round_robin
           (analyzer_of (project_env ["m1"; "m2"; "m3"] [])) 4).
  discriminate.
Defined.

(** ** File names *)

Lemma length_append (a b : string) :
  String.length (a ++ b) = (String.length a + String.length b)%nat.
Proof. induction a as [|c a IH]; simpl; [reflexivity | now rewrite IH]. Qed.

Lemma substring_app_right (a b : string) :
  substring (String.length a) (String.length b) (a ++ b) = b.
Proof.
  induction a as [|c a IH]; simpl.
  - apply substring_all. lia.
  - exact IH.
Qed.

(** [s.endswith(suffix)] holds exactly when [s] is some string followed
    by [suffix]. *)
Lemma endswith_iff (s suffix : string) :
  endswith s suffix = true <-> exists stem, s = stem ++ suffix.
Proof.
  unfold endswith. split.
  - intros H. apply andb_true_iff in H as [Hle Heq].
    apply Nat.leb_le in Hle. apply String.eqb_eq in Heq.
    set (k := String.length suffix) in *.
    exists (substring 0 (String.length s - k) s).
    rewrite <- Heq, <- substring_prefix_app.
    symmetry. apply substring_all. lia.
  - intros [stem ->]. rewrite length_append.
    apply andb_true_iff. split; [apply Nat.leb_le; lia|].
    replace (String.length stem + String.length suffix - String.length suffix)%nat
      with (String.length stem) by lia.
    rewrite substring_app_right. apply String.eqb_refl.
Qed.

(** X2. [is_supported_file] accepts exactly the names that end with one
    of the eight extensions of [SUPPORTED_EXTENSIONS], whatever comes
    before the extension (also nothing), and in the letter case of the
    list. *)
Theorem is_supported_file_iff (filename : string) :
  is_supported_file filename = true <->
  exists stem ext,
    In ext [".py"; ".js"; ".java"; ".cpp"; ".c"; ".cs"; ".ts"; ".php"] /\
    filename = stem ++ ext.
Proof.
  unfold is_supported_file, endswith_any, SUPPORTED_EXTENSIONS.
  rewrite existsb_exists. split.
  - intros (ext & Hin & Hend). apply endswith_iff in Hend as [stem ->].
    now exists stem, ext.
  - intros (stem & ext & Hin & ->). exists ext. split; [exact Hin|].
    apply endswith_iff. now exists stem.
Qed.

(** ** More on [split_content] *)

(** X3. For [max_length >= 1] every chunk of [split_content] has at least
    one character and at most [max_length]. *)
Theorem split_content_chunk_bounds (content : string) (max_length : Z) :
  1 <= max_length ->
  exists chunks,
    split_content content max_length = Returns chunks /\
    Forall (fun chunk => 1 <= len chunk <= max_length) chunks.
Proof.
  intros Hm.
  pose proof (chunk_count (len content) max_length
                ltac:(unfold len; lia) Hm) as [_ Hcover].
  rewrite split_content_windows by assumption.
  eexists. split; [reflexivity|].
  apply Forall_forall. intros chunk Hin.
  apply in_map_iff in Hin as (k & <- & Hk). apply in_seq in Hk.
  unfold len in *. rewrite substring_length. nia.
Qed.

Lemma split_content_chunk_bounds_witness :
  exists chunks,
    split_content "abcdefg" 3 = Returns chunks /\
    Forall (fun chunk => 1 <= len chunk <= 3) chunks.
Proof. apply (split_content_chunk_bounds "abcdefg" 3). lia. Defined.

(** X4. A [max_length] that is not positive does not split: with 0 the
    call raises [ValueError] (from [range]), and with a negative value it
    returns no chunk at all, whatever the content. *)
Theorem split_content_without_positive_length (content : string)
  (max_length : Z) :
  max_length <= 0 ->
  split_content content max_length
  = if max_length =? 0
    then Raises (ValueError "range() arg 3 must not be zero")
    else Returns [].
Proof.
  intros Hm. unfold split_content, range.
  destruct (Z.eqb_spec max_length 0); [reflexivity|].
  unfold range_len.
  destruct (Z.ltb_spec 0 max_length); [lia|].
  destruct (Z.ltb_spec (len content) 0); [unfold len in *; lia|].
  reflexivity.
Qed.

Lemma split_content_without_positive_length_witness :
  split_content "abcdefg" (-3) = Returns [] /\
  split_content "abcdefg" 0
  = Raises (ValueError "range() arg 3 must not be zero").
Proof.
  split.
  - apply (split_content_without_positive_length "abcdefg" (-3)). lia.
  - apply (split_content_without_positive_length "abcdefg" 0). lia.
Defined.

(** ** More on the retry wrapper *)

(** X5. Whatever [tries] is (also 0 or negative) and whatever the
    operation does, [retry] calls it at least once and at most
    [max(1, tries)] times, and sleeps once between two calls and not after
    the last one: the number of sleeps is the number of calls less one. *)
Theorem retry_calls_at_least_once {A} (exceptions : exn -> bool)
  (tries delay backoff : Z) (outcomes : nat -> outcome A) (w : world) :
  0 <= delay -> 0 <= backoff ->
  exists r w' new,
    retry exceptions tries delay backoff (invoke Attempt outcomes) w = (r, w') /\
    trace w' = (trace w ++ new)%list /\
    (1 <= attempts new)%nat /\
    Z.of_nat (attempts new) <= Z.max 1 tries /\
    List.length (sleeps new) = (attempts new - 1)%nat.
Proof.
  intros Hd Hb. unfold retry.
  destruct (retry_loop_invoke exceptions backoff outcomes
              (Z.to_nat (tries - 1)) Hb delay w Hd)
    as (w' & new & Hrun & _ & Htr & Hatt & Hsl & _).
  pose proof (retries_bound exceptions outcomes (Z.to_nat (tries - 1))
                (requests w)) as Hle.
  eexists _, w', new. split; [exact Hrun|]. split; [exact Htr|].
  rewrite Hatt, Hsl, length_map, length_seq. lia.
Qed.

Lemma retry_calls_at_least_once_witness :
  exists r w' new,
    retry is_network 0 1 2 (invoke Attempt flaky) w0 = (r, w') /\
    trace w' = (trace w0 ++ new)%list /\
    (1 <= attempts new)%nat /\
    Z.of_nat (attempts new) <= Z.max 1 0 /\
    List.length (sleeps new) = (attempts new - 1)%nat.
Proof. apply (retry_calls_at_least_once is_network 0 1 2 flaky w0); lia. Defined.

(** ** The state after a call of [process_code] *)

Lemma emits_spec (evs : list event) :
  forall w,
    emits evs w
    = World (clock w) (last_reset w) (num_calls w) (token_pos w) (requests w)
            (trace w ++ evs).
Proof.
  induction evs as [|ev evs IH]; intros [clk reset calls pos req tr]; simpl.
  - now rewrite app_nil_r.
  - rewrite IH. simpl. now rewrite <- app_assoc.
Qed.

(** The loop of [sleep_and_retry] over [limits] starts the function in the
    state [admitted]. *)
Lemma sleep_and_retry_admitted {A} (func : M A) (fuel : nat) (w : world) :
  (2 <= fuel)%nat ->
  (forall w1 pr, fst (func w1) <> Raise (RateLimitException pr)) ->
  sleep_and_retry fuel (limits CALLS PERIOD func) w = func (admitted w).
Proof.
  intros Hfuel Hfunc.
  assert (Hpass : forall k w1,
             try_except func
               (fun e => match e with
                         | RateLimitException period_remaining =>
                             Some (sleep period_remaining ;;;
                                   sleep_and_retry k (limits CALLS PERIOD func))
                         | _ => None
                         end) w1 = func w1).
  { intros k w1. unfold try_except. specialize (Hfunc w1).
    destruct (func w1) as [[a|e|] w']; try reflexivity.
    destruct e; try reflexivity. exfalso. eapply Hfunc. reflexivity. }
  destruct fuel as [|[|k]]; try lia.
  destruct w as [clk reset calls pos req tr].
  assert (Hadm :
    admitted (World clk reset calls pos req tr)
    = if 1 - (clk - reset) <=? 0
      then World clk clk 1 pos req (tr ++ [Limit true])
      else if 5 <? calls + 1
      then World (clk + (1 - (clk - reset))) (clk + (1 - (clk - reset))) 1
                 pos req
                 (((tr ++ [Limit false]) ++ [Sleep (1 - (clk - reset))])
                  ++ [Limit true])
      else World clk reset (calls + 1) pos req (tr ++ [Limit true]))
    by reflexivity.
  rewrite Hadm. clear Hadm.
  cbn [sleep_and_retry]. unfold try_except at 1. unfold limits at 1.
  rewrite clamped_CALLS. unfold PERIOD. cbn [clock last_reset num_calls].
  destruct (Z.leb_spec (1 - (clk - reset)) 0) as [Hp|Hp].
  - cbn [set_limiter clock last_reset num_calls token_pos requests trace].
    destruct (Z.ltb_spec 5 (0 + 1)) as [|_]; [lia|].
    apply (Hpass (S k)).
  - cbn [set_limiter clock last_reset num_calls token_pos requests trace].
    destruct (Z.ltb_spec 5 (calls + 1)) as [Hfull|Hroom].
    + unfold bind at 1, sleep at 1.
      destruct (Z.ltb_spec (1 - (clk - reset)) 0) as [|_]; [lia|].
      cbn [sleep_and_retry]. unfold try_except at 1. unfold limits at 1.
      rewrite clamped_CALLS. unfold PERIOD.
      cbn [emit advance set_limiter clock last_reset num_calls token_pos
           requests trace].
      destruct (Z.leb_spec (1 - (clk + (1 - (clk - reset)) - reset)) 0)
        as [_|]; [|lia].
      cbn [emit advance set_limiter clock last_reset num_calls token_pos
           requests trace].
      destruct (Z.ltb_spec 5 (0 + 1)) as [|_]; [lia|].
      apply (Hpass k).
    + apply (Hpass (S k)).
Qed.

Lemma process_code_body_explicit (E : Env) (self : CodeAnalyzer)
  (file_path model_token content : string) (w : world) :
  let o := chat_completion E (requests w) model_token content in
  process_code_body E self file_path model_token content w
  = (Ret (response_text o),
     count_request (emits (body_events file_path model_token content o) w)).
Proof.
  destruct w as [clk reset calls pos req tr].
  unfold process_code_body, try_except, bind, log, invoke, response_text,
    body_events.
  cbn [emit count_request clock last_reset num_calls token_pos requests trace].
  destruct (chat_completion E req model_token content) as [text|e];
    cbn [of_outcome]; [reflexivity|].
  destruct (is_network e); reflexivity.
Qed.

(** One call of [process_code]: through the limiter, then the body once. *)
Lemma process_code_explicit (E : Env) (fuel : nat) (self : CodeAnalyzer)
  (file_path model_token content : string) (w : world) :
  (2 <= fuel)%nat ->
  let o := chat_completion E (requests w) model_token content in
  process_code E fuel self file_path model_token content w
  = (Ret (response_text o),
     count_request
       (emits (body_events file_path model_token content o) (admitted w))).
Proof.
  intros Hfuel o.
  set (body := process_code_body E self file_path model_token content).
  assert (Hretry : forall w1,
             retry is_network 3 default_delay default_backoff body w1 = body w1).
  { intros w1. unfold retry. eapply retry_loop_returns.
    unfold body. rewrite process_code_body_explicit. reflexivity. }
  unfold process_code, process_code_decorators. fold body.
  rewrite sleep_and_retry_admitted; [| exact Hfuel |].
  - rewrite Hretry. unfold body. rewrite process_code_body_explicit.
    assert (Hreq : requests (admitted w) = requests w).
    { unfold admitted. destruct w as [clk reset calls pos req tr].
      cbn [clock last_reset num_calls].
      destruct (_ <=? 0); [reflexivity|]. destruct (_ <? _); reflexivity. }
    rewrite Hreq. reflexivity.
  - intros w1 pr. rewrite Hretry. unfold body.
    rewrite process_code_body_explicit. discriminate.
Qed.

(** What the limiter does to the state of a call that starts with the
    period begun at or before the present time. *)
Ltac world_cbn :=
  cbn [emit advance set_limiter set_token_pos count_request
       clock last_reset num_calls token_pos requests trace app].

Lemma admitted_spec (w : world) :
  last_reset w <= clock w -> 0 <= num_calls w ->
  exists slept,
    trace (admitted w) = (trace w ++ slept ++ [Limit true])%list /\
    (slept = [] \/
     exists d, 0 < d <= PERIOD /\ slept = [Limit false; Sleep d] /\
               clock (admitted w) = clock w + d) /\
    (slept = [] -> clock (admitted w) = clock w) /\
    last_reset (admitted w) <= clock (admitted w) /\
    1 <= num_calls (admitted w) <= CALLS /\
    token_pos (admitted w) = token_pos w /\
    requests (admitted w) = requests w.
Proof.
  intros Hreset Hcalls. destruct w as [clk reset calls pos req tr].
  unfold admitted, PERIOD, CALLS in *. cbn [clock last_reset num_calls] in *.
  destruct (Z.leb_spec (1 - (clk - reset)) 0).
  - exists []. world_cbn. repeat split; try lia. now left.
  - destruct (Z.ltb_spec 5 (calls + 1)).
    + exists [Limit false; Sleep (1 - (clk - reset))]. world_cbn.
      split; [now rewrite <- !app_assoc|].
      split.
      { right. exists (1 - (clk - reset)).
        split; [lia | split; [reflexivity | lia]]. }
      split; [discriminate|]. repeat split; lia.
    + exists []. world_cbn. repeat split; try lia. now left.
Qed.

(** X6. A call of [process_code] that starts when the limiter's period
    began at or before the present time returns after at most one sleep,
    of at most [PERIOD] (one second), made before the request; the clock
    moves by that sleep and by nothing else, and the call leaves the
    limiter with its period begun at or before the present time and
    between 1 and [CALLS] (five) calls counted in it, so the same holds for
    the next call. *)
Theorem process_code_waits_at_most_one_period (E : Env) (fuel : nat)
  (self : CodeAnalyzer) (file_path model_token content : string) (w : world) :
  (2 <= fuel)%nat ->
  last_reset w <= clock w -> 0 <= num_calls w ->
  exists s w' new,
    process_code E fuel self file_path model_token content w = (Ret s, w') /\
    trace w' = (trace w ++ new)%list /\
    (sleeps new = [] \/ exists d, 0 < d <= PERIOD /\ sleeps new = [d]) /\
    clock w' = clock w + fold_right Z.add 0 (sleeps new) /\
    last_reset w' <= clock w' /\
    1 <= num_calls w' <= CALLS.
Proof.
  intros Hfuel Hreset Hcalls.
  rewrite process_code_explicit by exact Hfuel.
  set (o := chat_completion E (requests w) model_token content).
  destruct (admitted_spec w Hreset Hcalls)
    as (slept & Htr & Hslept & Hclk & Hinv & Hnum & _ & _).
  assert (Hbody : sleeps (body_events file_path model_token content o) = []).
  { unfold body_events. destruct o as [text|e]; [reflexivity|].
    destruct (is_network e); reflexivity. }
  eexists _, _, (slept ++ [Limit true]
                 ++ body_events file_path model_token content o)%list.
  split; [reflexivity|].
  rewrite emits_spec.
  cbn [count_request clock last_reset num_calls token_pos requests trace].
  split; [rewrite Htr; now rewrite <- !app_assoc|].
  rewrite !sleeps_app, Hbody.
  change (sleeps [Limit true]) with (@nil Z). cbn [app].
  rewrite !app_nil_r.
  destruct Hslept as [->|(d & Hd & -> & Hclk')].
  - specialize (Hclk eq_refl). rewrite Hclk in *. cbn [sleeps pick fold_right].
    split; [now left|]. repeat split; lia.
  - rewrite Hclk' in *. cbn [sleeps pick fold_right].
    split; [right; exists d; split; [lia | reflexivity]|].
    repeat split; lia.
Qed.

Lemma process_code_waits_at_most_one_period_witness :
  exists s w' new,
    process_code (project_env ["m1"] []) 2 (analyzer_of (project_env ["m1"] []))
                 "proj/a.py" "m1" "eval(input())" (World 0 0 5 0 0 [])
    = (Ret s, w') /\
    trace w' = (trace (World 0 0 5 0 0 []) ++ new)%list /\
    (sleeps new = [] \/ exists d, 0 < d <= PERIOD /\ sleeps new = [d]) /\
    clock w' = clock (World 0 0 5 0 0 []) + fold_right Z.add 0 (sleeps new) /\
    last_reset w' <= clock w' /\
    1 <= num_calls w' <= CALLS.
Proof.
  apply (process_code_waits_at_most_one_period (project_env ["m1"] []) 2
           (analyzer_of (project_env ["m1"] [])) "proj/a.py" "m1"
           "eval(input())" (World 0 0 5 0 0 [])); simpl; lia.
Defined.

(** ** The chunks of one file *)

Lemma admitted_frame (w : world) :
  exists gate,
    trace (admitted w) = (trace w ++ gate)%list /\
    requests_made gate = [] /\
    reports gate = [] /\
    token_pos (admitted w) = token_pos w /\
    requests (admitted w) = requests w.
Proof.
  destruct w as [clk reset calls pos req tr]. unfold admitted.
  cbn [clock last_reset num_calls].
  destruct (_ <=? 0); [|destruct (_ <? _)]; world_cbn.
  - exists [Limit true]. repeat split.
  - exists [Limit false; Sleep (PERIOD - (clk - reset)); Limit true].
    split; [now rewrite <- !app_assoc|]. repeat split.
  - exists [Limit true]. repeat split.
Qed.

Lemma body_events_frame (file_path model_token content : string)
  (o : outcome string) :
  requests_made (body_events file_path model_token content o)
  = [(model_token, content)] /\
  reports (body_events file_path model_token content o) = [].
Proof.
  unfold body_events. destruct o as [text|e]; [split; reflexivity|].
  destruct (is_network e); split; reflexivity.
Qed.

(** A well shaped answer parses, with at most a line of log, to a value
    whose elements are its findings. *)
Lemma parse_issues_findings (E : Env) (response file_path : string)
  (w : world) :
  well_shaped E response = true ->
  exists issues evs,
    parse_issues E response file_path w = (Ret issues, emits evs w) /\
    py_iter issues = Returns (findings E response) /\
    (evs = [] \/ exists lvl msg, evs = [Log lvl msg]).
Proof.
  unfold well_shaped, findings. intros Hshape.
  destruct (json_loads E response) as [decoded|e] eqn:Hdec.
  - destruct decoded; try discriminate.
    unfold parse_issues, try_except, bind, lift, py_get. rewrite Hdec.
    cbn [of_outcome].
    destruct (dict_lookup d "issues") as [issues|].
    + destruct (py_iter issues) as [items|] eqn:Hit; [|discriminate].
      destruct (truthy issues).
      * exists issues, []. repeat split; try assumption. now left.
      * eexists issues, [_]. repeat split; try assumption.
        right. eexists _, _. reflexivity.
    + eexists (PList []), [_]. repeat split. right. eexists _, _. reflexivity.
  - destruct e; try discriminate.
    rewrite (parse_issues_decode_error E response file_path msg w Hdec).
    eexists (PList []), [_]. repeat split. right. eexists _, _. reflexivity.
Qed.

Section Chunks.

Variable E : Env.
Variable fuel : nat.
Variable self : CodeAnalyzer.

Hypothesis enough_fuel : (2 <= fuel)%nat.
Hypothesis answers_well_shaped :
  forall n model content,
    well_shaped E (response_text (chat_completion E n model content)) = true.

(** One round of the loop of [collect_issues]. *)
Lemma collect_step (file_path token chunk : string) (rest : list string)
  (summaries : list pyval) (w : world) :
  exists evs,
    (evs = [] \/ exists lvl msg, evs = [Log lvl msg]) /\
    let o := chat_completion E (requests w) token chunk in
    collect_loop E fuel self file_path token (chunk :: rest) summaries w
    = collect_loop E fuel self file_path token rest
        (summaries ++ findings E (response_text o))
        (emits evs
           (count_request
              (emits (body_events file_path token chunk o) (admitted w)))).
Proof.
  cbn [collect_loop]. unfold bind at 1.
  rewrite process_code_explicit by exact enough_fuel.
  set (o := chat_completion E (requests w) token chunk).
  set (w1 := count_request _).
  destruct (parse_issues_findings E (response_text o) file_path w1
              (answers_well_shaped (requests w) token chunk))
    as (issues & evs & Hrun & Hit & Hevs).
  exists evs. split; [exact Hevs|].
  cbn zeta. unfold bind at 1. rewrite Hrun.
  unfold bind at 1, lift. rewrite Hit. reflexivity.
Qed.

(** The run of [collect_issues] over the chunks of a file. *)
Lemma collect_issues_run (file_path token : string)
  (contents : list string) (w : world) :
  exists w' new,
    collect_issues E fuel self file_path token contents w
    = (Ret (flat_map
              (fun numbered =>
                 findings E (response_text
                               (chat_completion E (fst numbered) token
                                                (snd numbered))))
              (combine (seq (requests w) (List.length contents)) contents)),
       w') /\
    trace w' = (trace w ++ new)%list /\
    requests_made new = map (pair token) contents /\
    reports new = [] /\
    requests w' = (requests w + List.length contents)%nat /\
    token_pos w' = token_pos w.
Proof.
  unfold collect_issues.
  change (flat_map ?f ?l) with ([] ++ flat_map f l)%list.
  generalize (@nil pyval) as summaries. revert w.
  induction contents as [|chunk rest IH]; intros w summaries.
  - exists w, []. cbn. rewrite !app_nil_r. repeat split. lia.
  - destruct (collect_step file_path token chunk rest summaries w)
      as (evs & Hevs & Hstep).
    cbn zeta in Hstep. rewrite Hstep. clear Hstep.
    set (o := chat_completion E (requests w) token chunk) in *.
    set (w2 := emits evs _).
    destruct (admitted_frame w) as (gate & Hg & Hgreq & Hgrep & Hgpos & Hgr).
    destruct (body_events_frame file_path token chunk o) as [Hbreq Hbrep].
    assert (Hw2 : trace w2
                  = (trace w ++ gate ++ body_events file_path token chunk o
                     ++ evs)%list /\
                  requests w2 = S (requests w) /\
                  token_pos w2 = token_pos w).
    { subst w2. rewrite !emits_spec. world_cbn.
      rewrite Hg, Hgpos, Hgr. split; [now rewrite <- !app_assoc|]. split;
        reflexivity. }
    destruct Hw2 as (Htr2 & Hreq2 & Hpos2).
    destruct (IH w2 (summaries ++ findings E (response_text o))%list)
      as (w' & new & Hrun & Htr & Hreq & Hrep & Hcnt & Hpos).
    exists w', (gate ++ body_events file_path token chunk o ++ evs ++ new)%list.
    rewrite Hrun, Hreq2. cbn [List.length seq combine flat_map fst snd].
    split; [now rewrite <- app_assoc|].
    split; [rewrite Htr, Htr2; now rewrite <- !app_assoc|].
    assert (Hevs' : requests_made evs = [] /\ reports evs = []).
    { destruct Hevs as [->|(lvl & msg & ->)]; split; reflexivity. }
    destruct Hevs' as [Hereq Herep].
    split.
    { unfold requests_made in *. rewrite !pick_app.
      rewrite Hgreq, Hbreq, Hereq, Hreq. reflexivity. }
    split.
    { unfold reports in *. rewrite !pick_app.
      rewrite Hgrep, Hbrep, Herep, Hrep. reflexivity. }
    split; [rewrite Hcnt, Hreq2; lia|].
    now rewrite Hpos, Hpos2.
Qed.

(** X7. [collect_issues] sends one request for each chunk, in the order
    of the chunks and all with the token it was given, and returns the
    findings of the answers in that order: those of the first chunk before
    those of the second, and so on. *)
Theorem collect_issues_in_chunk_order (file_path token : string)
  (contents : list string) (w : world) :
  exists w' new,
    collect_issues E fuel self file_path token contents w
    = (Ret (flat_map
              (fun numbered =>
                 findings E (response_text
                               (chat_completion E (fst numbered) token
                                                (snd numbered))))
              (combine (seq (requests w) (List.length contents)) contents)),
       w') /\
    trace w' = (trace w ++ new)%list /\
    requests_made new = map (pair token) contents /\
    reports new = [] /\
    requests w' = (requests w + List.length contents)%nat /\
    token_pos w' = token_pos w.
Proof. apply collect_issues_run. Qed.

(** The limiter in a period that has just begun: a call goes through at
    once while fewer than [CALLS] calls are counted, and otherwise after a
    sleep of one period. *)
Lemma admitted_fresh (w : world) :
  clock w = last_reset w -> 0 <= num_calls w <= CALLS ->
  clock (admitted w) = last_reset (admitted w) /\
  clock (admitted w)
  = clock w + (if num_calls w =? CALLS then PERIOD else 0) /\
  num_calls (admitted w)
  = (if num_calls w =? CALLS then 1 else num_calls w + 1).
Proof.
  destruct w as [clk reset calls pos req tr]. unfold admitted, PERIOD, CALLS.
  cbn [clock last_reset num_calls]. intros -> Hc.
  destruct (Z.leb_spec (1 - (reset - reset)) 0); [lia|].
  destruct (Z.ltb_spec 5 (calls + 1)); destruct (Z.eqb_spec calls 5);
    try lia; world_cbn; repeat split; lia.
Qed.

(** The clock over the chunks of a file, from a period that has just
    begun. *)
Lemma collect_issues_clock_run (file_path token : string)
  (contents : list string) (w : world) :
  clock w = last_reset w -> 0 <= num_calls w <= CALLS ->
  exists out w',
    collect_issues E fuel self file_path token contents w = (Ret out, w') /\
    clock w'
    = clock w
      + PERIOD * Z.max 0 ((num_calls w + Z.of_nat (List.length contents) - 1)
                          / CALLS) /\
    clock w' = last_reset w' /\
    0 <= num_calls w' <= CALLS.
Proof.
  unfold collect_issues. generalize (@nil pyval) as summaries. revert w.
  induction contents as [|chunk rest IH]; intros w summaries Hfresh Hcalls.
  - exists summaries, w. split; [reflexivity|].
    unfold PERIOD, CALLS in *. cbn [List.length Z.of_nat].
    split; [|split; assumption].
    assert ((num_calls w + 0 - 1) / 5 < 1)
      by (apply Z.div_lt_upper_bound; lia).
    lia.
  - destruct (collect_step file_path token chunk rest summaries w)
      as (evs & _ & Hstep).
    cbn zeta in Hstep. rewrite Hstep. clear Hstep.
    set (w2 := emits evs _).
    destruct (admitted_fresh w Hfresh Hcalls) as (Hf & Hclk & Hnum).
    assert (Hw2 : clock w2 = clock (admitted w) /\
                  last_reset w2 = last_reset (admitted w) /\
                  num_calls w2 = num_calls (admitted w)).
    { subst w2. rewrite !emits_spec. world_cbn. repeat split. }
    destruct Hw2 as (Hc2 & Hr2 & Hn2).
    destruct (IH w2 (summaries ++ findings E (response_text
                 (chat_completion E (requests w) token chunk)))%list)
      as (out & w' & Hrun & Hclk' & Hfresh' & Hcalls').
    { congruence. }
    { rewrite Hn2, Hnum. unfold CALLS in *.
      destruct (Z.eqb_spec (num_calls w) 5); lia. }
    exists out, w'. split; [exact Hrun|].
    split; [|split; assumption].
    rewrite Hclk', Hc2, Hn2, Hclk, Hnum.
    unfold PERIOD, CALLS in *. cbn [List.length].
    rewrite Nat2Z.inj_succ.
    destruct (Z.eqb_spec (num_calls w) 5) as [Hfive|Hless].
    + rewrite Hfive.
      replace (5 + Z.succ (Z.of_nat (List.length rest)) - 1)
        with (1 + Z.of_nat (List.length rest) - 1 + 1 * 5) by lia.
      rewrite Z.div_add by lia.
      assert (0 <= (1 + Z.of_nat (List.length rest) - 1) / 5)
        by (apply Z.div_pos; lia).
      lia.
    + replace (num_calls w + Z.succ (Z.of_nat (List.length rest)) - 1)
        with (num_calls w + 1 + Z.of_nat (List.length rest) - 1) by lia.
      lia.
Qed.

End Chunks.

Lemma collect_issues_in_chunk_order_witness :
  let E := project_env ["m1"] [Returns two_issues; Returns no_issues] in
  exists w' new,
    collect_issues E 2 (analyzer_of E) "proj/a.py" "m1" ["eval("; "x)"] w0
    = (Ret (findings E two_issues ++ findings E no_issues)%list, w') /\
    trace w' = (trace w0 ++ new)%list /\
    requests_made new = [("m1", "eval("); ("m1", "x)")] /\
    reports new = [] /\
    requests w' = 2%nat /\
    token_pos w' = 0%nat.
Proof.
  apply (collect_issues_in_chunk_order
           (project_env ["m1"] [Returns two_issues; Returns no_issues]) 2
           (analyzer_of (project_env ["m1"] [])) ltac:(lia)).
  intros [|[|[|n]]] model content; reflexivity.
Defined.

(** X8. When every answer is well shaped (it does not decode as JSON, or
    decodes to an object whose value under ["issues"], if any, can be
    iterated), and from a state in which the limiter's period has just
    begun with [j] calls counted ([0 <= j <= CALLS]) and no time has passed
    since, [collect_issues] over [n] chunks returns and moves the clock by
    [PERIOD * max(0, (j + n - 1) div CALLS)] seconds: five requests go out
    per second, and the sixth, eleventh, ... wait for the next second. It
    ends in a state of the same kind. *)
Theorem collect_issues_five_per_period (E : Env) (fuel : nat)
  (self : CodeAnalyzer) (file_path token : string) (contents : list string)
  (w : world) :
  (2 <= fuel)%nat ->
  (forall n model content,
     well_shaped E (response_text (chat_completion E n model content)) = true) ->
  clock w = last_reset w -> 0 <= num_calls w <= CALLS ->
  exists out w',
    collect_issues E fuel self file_path token contents w = (Ret out, w') /\
    clock w'
    = clock w
      + PERIOD * Z.max 0 ((num_calls w + Z.of_nat (List.length contents) - 1)
                          / CALLS) /\
    clock w' = last_reset w' /\
    0 <= num_calls w' <= CALLS.
Proof.
  intros Hfuel Hshape.
  exact (collect_issues_clock_run E fuel self Hfuel Hshape file_path token
           contents w).
Qed.

Lemma collect_issues_five_per_period_witness :
  let E := project_env ["m1"] [] in
  exists out w',
    collect_issues E 2 (analyzer_of E) "proj/a.py" "m1"
                   ["1"; "2"; "3"; "4"; "5"; "6"; "7"] w0
    = (Ret out, w') /\
    clock w' = 1 /\
    clock w' = last_reset w' /\
    0 <= num_calls w' <= CALLS.
Proof.
  apply (collect_issues_five_per_period (project_env ["m1"] []) 2
           (analyzer_of (project_env ["m1"] [])) "proj/a.py" "m1"
           ["1"; "2"; "3"; "4"; "5"; "6"; "7"] w0).
  - lia.
  - intros [|n] model content; reflexivity.
  - reflexivity.
  - simpl. unfold CALLS. lia.
Defined.

(** X9. A request that raises does not stop the file: when the text that
    [process_code] returns for the exception does not decode as JSON,
    [collect_issues] returns no findings for that chunk, after the one
    request. *)
Theorem failed_request_gives_no_findings (E : Env) (fuel : nat)
  (self : CodeAnalyzer) (file_path token chunk : string) (w : world)
  (e : exn) (msg : string) :
  (2 <= fuel)%nat ->
  chat_completion E (requests w) token chunk = Raises e ->
  json_loads E (response_text (Raises e)) = Raises (JSONDecodeError msg) ->
  exists w',
    collect_issues E fuel self file_path token [chunk] w = (Ret [], w') /\
    requests w' = S (requests w).
Proof.
  intros Hfuel Hreq Hdec.
  unfold collect_issues. cbn [collect_loop]. unfold bind at 1.
  rewrite process_code_explicit by exact Hfuel. rewrite Hreq.
  unfold bind at 1.
  rewrite (parse_issues_decode_error E _ file_path msg _ Hdec).
  eexists. split; [reflexivity|].
  destruct (admitted_frame w) as (gate & _ & _ & _ & _ & Hr).
  cbn [emit requests]. rewrite emits_spec. world_cbn. now rewrite Hr.
Qed.

Lemma failed_request_gives_no_findings_witness :
  let E := project_env ["m1"] [Raises (Timeout "timed out")] in
  exists w',
    collect_issues E 2 (analyzer_of E) "proj/a.py" "m1" ["eval(input())"] w0
    = (Ret [], w') /\
    requests w' = 1%nat.
Proof.
  apply (failed_request_gives_no_findings
           (project_env ["m1"] [Raises (Timeout "timed out")]) 2
           (analyzer_of (project_env ["m1"] [])) "proj/a.py" "m1"
           "eval(input())" w0 (Timeout "timed out") "Expecting value");
    [lia | reflexivity | reflexivity].
Defined.

(** ** The files of a run *)

(** The chunks [analyze] sends for a content: they make up the content,
    there is at least one, and none is longer than 5000 characters. *)
Lemma chunks_of_content_facts (content : string) :
  exists contents,
    (if 5000 <? len content
     then lift (split_content content default_max_length)
     else ret [content])
    = ret contents /\
    String.concat "" contents = content /\
    contents <> [] /\
    Forall (fun chunk => len chunk <= 5000) contents /\
    Z.of_nat (List.length contents)
    = (if 5000 <? len content then (len content + 4999) / 5000 else 1).
Proof.
  destruct (Z.ltb_spec 5000 (len content)) as [Hlong|Hshort].
  - assert (Hm : 1 <= default_max_length) by (unfold default_max_length; lia).
    pose proof (chunk_count (len content) default_max_length
                  ltac:(unfold len; lia) Hm) as [Hcount Hcover].
    rewrite split_content_windows by exact Hm.
    eexists. split; [reflexivity|].
    unfold default_max_length in *.
    split; [|split; [|split]].
    + rewrite concat_windows. apply substring_all. unfold len in *. lia.
    + intros Hnil. apply (f_equal (@List.length string)) in Hnil.
      rewrite length_map, length_seq in Hnil. cbn [List.length] in Hnil. lia.
    + apply Forall_forall. intros chunk Hin.
      apply in_map_iff in Hin as (k & <- & _).
      unfold len. rewrite substring_length. lia.
    + rewrite length_map, length_seq, Hcount.
      replace (len content + 5000 - 1) with (len content + 4999) by lia.
      apply Z2Nat.id. apply Z.div_pos; unfold len; lia.
  - exists [content]. split; [reflexivity|].
    split; [reflexivity|]. split; [discriminate|].
    split; [constructor; [exact Hshort | constructor] | reflexivity].
Qed.

Lemma for_each_tokens {A} (body : A -> M unit) (cost : A -> nat) :
  (forall x w, exists w',
      body x w = (Ret tt, w') /\ token_pos w' = (token_pos w + cost x)%nat) ->
  forall l w, exists w',
    for_each l body w = (Ret tt, w') /\
    token_pos w' = (token_pos w + list_sum (map cost l))%nat.
Proof.
  intros Hbody l. unfold list_sum.
  induction l as [|x l IH]; intros w; cbn [for_each map fold_right].
  - exists w. split; [reflexivity | lia].
  - destruct (Hbody x w) as (w1 & Hrun1 & Hpos1).
    destruct (IH w1) as (w2 & Hrun2 & Hpos2).
    exists w2. unfold bind. rewrite Hrun1, Hrun2.
    split; [reflexivity | lia].
Qed.

Lemma supported_names_count (entries : list (string * list string)) :
  list_sum (map (fun entry =>
                   list_sum (map (fun filename =>
                                    if is_supported_file filename
                                    then 1%nat else 0%nat) (snd entry)))
                entries)
  = List.length (supported_names entries).
Proof.
  unfold supported_names, list_sum.
  induction entries as [|[root files] entries IH]; [reflexivity|].
  cbn [map fold_right flat_map snd]. rewrite length_app, IH. f_equal.
  clear. induction files as [|f files IH]; [reflexivity|].
  cbn [map fold_right filter].
  destruct (is_supported_file f); cbn [List.length]; lia.
Qed.

Section Files.

Variable E : Env.
Variable fuel : nat.
Variable self : CodeAnalyzer.

Hypothesis enough_fuel : (2 <= fuel)%nat.
Hypothesis some_token : token_cycle self <> [].
Hypothesis answers_well_shaped :
  forall n model content,
    well_shaped E (response_text (chat_completion E n model content)) = true.

(** A supported file that can be read: what [analyze] does for it. *)
Lemma analyze_file_readable_run (root filename content : string) (w : world) :
  is_supported_file filename = true ->
  read_outcome E (path_join root filename) = Returns content ->
  let file_path := path_join root filename in
  let token := nth (token_pos w mod List.length (token_cycle self))%nat
                   (token_cycle self) "" in
  exists contents w' new,
    analyze_file E fuel self root filename w = (Ret tt, w') /\
    trace w' = (trace w ++ new)%list /\
    String.concat "" contents = content /\
    contents <> [] /\
    Forall (fun chunk => len chunk <= 5000) contents /\
    requests_made new = map (pair token) contents /\
    reports new
    = [(file_path,
        flat_map
          (fun numbered =>
             findings E (response_text
                           (chat_completion E (fst numbered) token
                                            (snd numbered))))
          (combine (seq (requests w) (List.length contents)) contents))] /\
    token_pos w' = S (token_pos w) /\
    requests w' = (requests w + List.length contents)%nat /\
    Z.of_nat (List.length contents)
    = (if 5000 <? len content then (len content + 4999) / 5000 else 1).
Proof.
  intros Hsup Hread file_path token.
  unfold analyze_file. rewrite Hsup. cbn [negb]. fold file_path.
  unfold bind at 1, get_next_token.
  destruct (token_cycle self) as [|t ts] eqn:Htok; [contradiction|].
  assert (Htoken : nth (token_pos w mod List.length (t :: ts))%nat (t :: ts) t
                   = token).
  { subst token. apply nth_indep. apply Nat.mod_upper_bound. discriminate. }
  rewrite Htoken.
  unfold bind at 1, log.
  unfold bind at 1, try_except, bind at 1.
  rewrite read_file_outcome. fold file_path in Hread. rewrite Hread.
  cbn [of_outcome]. unfold ret at 1.
  destruct (chunks_of_content_facts content)
    as (contents & -> & Hcat & Hne & Hlen & Hcount).
  unfold bind at 1, ret at 1.
  set (w1 := emit (Log INFO ("Analyzing file: " ++ file_path))
                  (set_token_pos (S (token_pos w)) w)).
  destruct (collect_issues_run E fuel self enough_fuel answers_well_shaped
              file_path token contents w1)
    as (w2 & new1 & Hrun & Htr & Hreq & Hrep & Hcnt & Hpos).
  unfold bind at 1. rewrite Hrun. unfold add_file_summary.
  eexists contents, _,
    (Log INFO ("Analyzing file: " ++ file_path)
     :: new1 ++ [Report file_path _])%list.
  split; [reflexivity|].
  split.
  { cbn [emit trace]. rewrite Htr. subst w1. cbn [emit set_token_pos trace].
    now rewrite <- !app_assoc. }
  split; [exact Hcat|]. split; [exact Hne|]. split; [exact Hlen|].
  split.
  { change (requests_made (?x :: ?l)) with (requests_made ([x] ++ l)).
    unfold requests_made in *. rewrite !pick_app, Hreq. cbn [pick app].
    now rewrite app_nil_r. }
  split.
  { change (reports (?x :: ?l)) with (reports ([x] ++ l)).
    unfold reports in *. rewrite !pick_app, Hrep. reflexivity. }
  split; [cbn [emit token_pos]; rewrite Hpos; reflexivity|].
  split; [cbn [emit requests]; rewrite Hcnt; reflexivity | exact Hcount].
Qed.

(** A supported file that cannot be read. *)
Lemma analyze_file_unreadable_run (root filename : string) (e : exn)
  (w : world) :
  is_supported_file filename = true ->
  read_outcome E (path_join root filename) = Raises e ->
  analyze_file E fuel self root filename w
  = (Ret tt,
     emits [Log INFO ("Analyzing file: " ++ path_join root filename);
            Log ERROR ("Failed to read " ++ path_join root filename ++ ": "
                       ++ exn_str e)]
           (set_token_pos (S (token_pos w)) w)).
Proof.
  intros Hsup Hread.
  unfold analyze_file. rewrite Hsup. cbn [negb].
  unfold bind at 1, get_next_token.
  destruct (token_cycle self) as [|t ts] eqn:Htok; [contradiction|].
  unfold bind at 1, log.
  unfold bind at 1, try_except, bind at 1.
  rewrite read_file_outcome, Hread. reflexivity.
Qed.

(** X10. A file with a supported name that cannot be read (the first
    encoding raises something other than [UnicodeDecodeError], or the
    second encoding raises too) is passed over: [analyze] writes the two
    lines of log, sends no request and makes no report for it, and goes
    on; the file has taken its token from the cycle all the same. *)
Theorem unreadable_file_is_skipped_with_its_token (root filename : string)
  (e : exn) (w : world) :
  is_supported_file filename = true ->
  read_outcome E (path_join root filename) = Raises e ->
  analyze_file E fuel self root filename w
  = (Ret tt,
     emits [Log INFO ("Analyzing file: " ++ path_join root filename);
            Log ERROR ("Failed to read " ++ path_join root filename ++ ": "
                       ++ exn_str e)]
           (set_token_pos (S (token_pos w)) w)).
Proof. apply analyze_file_unreadable_run. Qed.

(** X11. For a supported file that can be read, [analyze] sends the whole
    content: the user contents of the requests made for the file, put
    together in order, are the content of the file. There is at least one
    request (one with an empty content for an empty file), no content is
    longer than 5000 characters, and all the requests carry the one token
    the file took from the cycle. *)
Theorem analyze_sends_the_whole_file (root filename content : string)
  (w : world) :
  is_supported_file filename = true ->
  read_outcome E (path_join root filename) = Returns content ->
  exists contents w' new,
    analyze_file E fuel self root filename w = (Ret tt, w') /\
    trace w' = (trace w ++ new)%list /\
    requests_made new
    = map (pair (nth (token_pos w mod List.length (token_cycle self))%nat
                     (token_cycle self) "")) contents /\
    String.concat "" contents = content /\
    contents <> [] /\
    Forall (fun chunk => len chunk <= 5000) contents.
Proof.
  intros Hsup Hread.
  destruct (analyze_file_readable_run root filename content w Hsup Hread)
    as (contents & w' & new & Hrun & Htr & Hcat & Hne & Hlen & Hreq & _).
  exists contents, w', new. repeat split; assumption.
Qed.

(** X12. For a supported file that can be read, [analyze] calls
    [add_file_summary] once, with the path of the file and the findings of
    the answers to its requests in the order of the requests, which are
    numbered on from the requests made before. *)
Theorem analyze_reports_findings_in_request_order
  (root filename content : string) (w : world) :
  is_supported_file filename = true ->
  read_outcome E (path_join root filename) = Returns content ->
  exists contents w' new,
    analyze_file E fuel self root filename w = (Ret tt, w') /\
    trace w' = (trace w ++ new)%list /\
    requests_made new
    = map (pair (nth (token_pos w mod List.length (token_cycle self))%nat
                     (token_cycle self) "")) contents /\
    reports new
    = [(path_join root filename,
        flat_map
          (fun numbered =>
             findings E
               (response_text
                  (chat_completion E (fst numbered)
                     (nth (token_pos w mod List.length (token_cycle self))%nat
                          (token_cycle self) "")
                     (snd numbered))))
          (combine (seq (requests w) (List.length contents)) contents))] /\
    requests w' = (requests w + List.length contents)%nat.
Proof.
  intros Hsup Hread.
  destruct (analyze_file_readable_run root filename content w Hsup Hread)
    as (contents & w' & new & Hrun & Htr & _ & _ & _ & Hreq & Hrep & _ & Hcnt
        & _).
  exists contents, w', new. repeat split; assumption.
Qed.

(** The number of requests for a supported file that can be read. *)
Lemma analyze_file_request_count_run (root filename content : string)
  (w : world) :
  is_supported_file filename = true ->
  read_outcome E (path_join root filename) = Returns content ->
  exists w',
    analyze_file E fuel self root filename w = (Ret tt, w') /\
    Z.of_nat (requests w') - Z.of_nat (requests w)
    = (if 5000 <? len content then (len content + 4999) / 5000 else 1).
Proof.
  intros Hsup Hread.
  destruct (analyze_file_readable_run root filename content w Hsup Hread)
    as (contents & w' & new & Hrun & _ & _ & _ & _ & _ & _ & _ & Hcnt & Hcount).
  exists w'. split; [exact Hrun|]. rewrite Hcnt, <- Hcount. lia.
Qed.

Lemma analyze_file_tokens (root filename : string) (w : world) :
  exists w',
    analyze_file E fuel self root filename w = (Ret tt, w') /\
    token_pos w'
    = (token_pos w + if is_supported_file filename then 1 else 0)%nat.
Proof.
  destruct (is_supported_file filename) eqn:Hsup.
  - destruct (read_outcome E (path_join root filename)) as [content|e] eqn:Hread.
    + destruct (analyze_file_readable_run root filename content w Hsup Hread)
        as (contents & w' & new & Hrun & _ & _ & _ & _ & _ & _ & Hpos & _).
      exists w'. split; [exact Hrun | lia].
    + rewrite (analyze_file_unreadable_run root filename e w Hsup Hread).
      eexists. split; [reflexivity|]. rewrite emits_spec. world_cbn. lia.
  - unfold analyze_file. rewrite Hsup. exists w. split; [reflexivity | lia].
Qed.

(** X13. A run of [analyze] (with at least one token and answers that are
    all well shaped) takes one token from the cycle for each supported
    file name of the walk, readable or not, and none for the other
    names. *)
Theorem analyze_takes_a_token_per_supported_name (w : world) :
  exists w',
    analyze E fuel self w = (Ret tt, w') /\
    token_pos w'
    = (token_pos w
       + List.length (supported_names (os_walk E (directory self))))%nat.
Proof.
  unfold analyze. rewrite <- supported_names_count.
  apply (for_each_tokens
           (fun entry =>
              for_each (snd entry) (fun filename =>
                analyze_file E fuel self (fst entry) filename))
           (fun entry =>
              list_sum (map (fun filename =>
                               if is_supported_file filename
                               then 1%nat else 0%nat) (snd entry)))).
  intros [root files] w1. cbn [fst snd].
  apply (for_each_tokens
           (fun filename => analyze_file E fuel self root filename)
           (fun filename => if is_supported_file filename then 1%nat else 0%nat)).
  intros filename w2. apply analyze_file_tokens.
Qed.

End Files.

Lemma unreadable_file_is_skipped_with_its_token_witness :
  let E := project_env ["m1"] [] in
  analyze_file E 2 (analyzer_of E) "proj" "c.py" w0
  = (Ret tt,
     World 0 0 0 1 0
       [Log INFO "Analyzing file: proj/c.py";
        Log ERROR "Failed to read proj/c.py: Permission denied"]).
Proof.
  apply (unreadable_file_is_skipped_with_its_token (project_env ["m1"] []) 2
           (analyzer_of (project_env ["m1"] [])) ltac:(discriminate)
           "proj" "c.py" (OSError "Permission denied") w0);
    reflexivity.
Defined.

Lemma analyze_sends_the_whole_file_witness :
  let E := project_env ["m1"; "m2"] [] in
  exists contents w' new,
    analyze_file E 2 (analyzer_of E) "proj" "a.py" (World 0 0 0 1 0 [])
    = (Ret tt, w') /\
    trace w' = (trace (World 0 0 0 1 0 []) ++ new)%list /\
    requests_made new = map (pair "m2") contents /\
    String.concat "" contents = "eval(input())" /\
    contents <> [] /\
    Forall (fun chunk => len chunk <= 5000) contents.
Proof.
  apply (analyze_sends_the_whole_file (project_env ["m1"; "m2"] []) 2
           (analyzer_of (project_env ["m1"; "m2"] [])) ltac:(lia)
           ltac:(discriminate)
           ltac:(intros [|n] model content; reflexivity)
           "proj" "a.py" "eval(input())" (World 0 0 0 1 0 []));
    reflexivity.
Defined.

Lemma analyze_reports_findings_in_request_order_witness :
  let E := project_env ["m1"] [Returns two_issues] in
  exists contents w' new,
    analyze_file E 2 (analyzer_of E) "proj" "a.py" w0 = (Ret tt, w') /\
    trace w' = (trace w0 ++ new)%list /\
    requests_made new = map (pair "m1") contents /\
    reports new
    = [("proj/a.py",
        flat_map
          (fun numbered =>
             findings E
               (response_text
                  (chat_completion E (fst numbered) "m1" (snd numbered))))
          (combine (seq 0 (List.length contents)) contents))] /\
    requests w' = (0 + List.length contents)%nat.
Proof.
  apply (analyze_reports_findings_in_request_order
           (project_env ["m1"] [Returns two_issues]) 2
           (analyzer_of (project_env ["m1"] [])) ltac:(lia)
           ltac:(discriminate)
           ltac:(intros [|[|n]] model content; reflexivity)
           "proj" "a.py" "eval(input())" w0);
    reflexivity.
Defined.

Lemma analyze_takes_a_token_per_supported_name_witness :
  let E := project_env ["m1"; "m2"] [] in
  exists w',
    analyze E 2 (analyzer_of E) w0 = (Ret tt, w') /\
    token_pos w' = 3%nat.
Proof.
  apply (analyze_takes_a_token_per_supported_name
           (project_env ["m1"; "m2"] []) 2
           (analyzer_of (project_env ["m1"; "m2"] [])) ltac:(lia)
           ltac:(discriminate)
           ltac:(intros [|n] model content; reflexivity) w0).
Defined.

(** ** A run without tokens *)

Lemma inner_loop_without_tokens (E : Env) (fuel : nat) (self : CodeAnalyzer)
  (root : string) (files : list string) (w : world) :
  token_cycle self = [] ->
  for_each files (fun filename => analyze_file E fuel self root filename) w
  = match filter is_supported_file files with
    | [] => (Ret tt, w)
    | _ :: _ => (Raise StopIteration, w)
    end.
Proof.
  intros Htok. induction files as [|f files IH]; [reflexivity|].
  cbn [for_each filter]. unfold bind at 1, analyze_file at 1.
  destruct (is_supported_file f); cbn [negb].
  - unfold bind at 1, get_next_token. rewrite Htok. reflexivity.
  - unfold ret at 1. exact IH.
Qed.

(** X14. With an empty list of tokens, [analyze] returns, having done
    nothing, when the walk has no supported file name; otherwise it ends
    with [StopIteration] at the first supported name, before anything is
    written to the log, read or sent. *)
Theorem analyze_without_tokens (E : Env) (fuel : nat) (self : CodeAnalyzer)
  (w : world) :
  token_cycle self = [] ->
  analyze E fuel self w
  = match supported_names (os_walk E (directory self)) with
    | [] => (Ret tt, w)
    | _ :: _ => (Raise StopIteration, w)
    end.
Proof.
  intros Htok. unfold analyze, supported_names.
  induction (os_walk E (directory self)) as [|[root files] entries IH];
    [reflexivity|].
  cbn [for_each flat_map fst snd]. unfold bind at 1.
  rewrite (inner_loop_without_tokens E fuel self root files w Htok).
  destruct (filter is_supported_file files); [exact IH | reflexivity].
Qed.

Lemma analyze_without_tokens_witness :
  let E := project_env [] [] in
  analyze E 2 (analyzer_of E) w0 = (Raise StopIteration, w0).
Proof.
  apply (analyze_without_tokens (project_env [] []) 2
           (analyzer_of (project_env [] [])) w0).
  reflexivity.
Defined.

(** X17. With at least one token, and answers that are all well shaped
    (each does not decode as JSON, or decodes to an object whose value
    under ["issues"], if any, can be iterated), [analyze] makes for a
    supported file that can be read, with a content of length [L], one
    request when [L <= 5000] (also for [L = 0]) and [ceil(L / 5000)]
    requests otherwise. *)
Theorem analyze_request_count (E : Env) (fuel : nat) (self : CodeAnalyzer)
  (root filename content : string) (w : world) :
  (2 <= fuel)%nat ->
  token_cycle self <> [] ->
  (forall n model content,
     well_shaped E (response_text (chat_completion E n model content)) = true) ->
  is_supported_file filename = true ->
  read_outcome E (path_join root filename) = Returns content ->
  exists w',
    analyze_file E fuel self root filename w = (Ret tt, w') /\
    Z.of_nat (requests w') - Z.of_nat (requests w)
    = (if 5000 <? len content then (len content + 4999) / 5000 else 1).
Proof.
  intros Hfuel Htok Hshape.
  exact (analyze_file_request_count_run E fuel self Hfuel Htok Hshape root
           filename content w).
Qed.

Lemma analyze_request_count_witness :
  let E := project_env ["m1"] [] in
  exists w',
    analyze_file E 2 (analyzer_of E) "proj" "a.py" w0 = (Ret tt, w') /\
    Z.of_nat (requests w') - Z.of_nat (requests w0) = 1.
Proof.
  apply (analyze_request_count (project_env ["m1"] []) 2
           (analyzer_of (project_env ["m1"] [])) "proj" "a.py"
           "eval(input())" w0).
  - lia.
  - discriminate.
  - intros [|n] model content; reflexivity.
  - reflexivity.
  - reflexivity.
Defined.

(** ** One request for each call *)

(** X15. A call of [process_code] sends exactly one request, with the
    model and the content it was given, whatever the outcome of the
    request: a request that raises (also an HTTP error, a connection error
    or a timeout) is not sent again, and the warning of the retry wrapper
    is never written. *)
Theorem process_code_never_retries (E : Env) (fuel : nat) (self : CodeAnalyzer)
  (file_path model_token content : string) (w : world) :
  (2 <= fuel)%nat ->
  exists s w' new,
    process_code E fuel self file_path model_token content w = (Ret s, w') /\
    trace w' = (trace w ++ new)%list /\
    requests_made new = [(model_token, content)] /\
    warnings new = [].
Proof.
  intros Hfuel. rewrite process_code_explicit by exact Hfuel.
  set (o := chat_completion E (requests w) model_token content).
  clearbody o.
  destruct w as [clk reset calls pos req tr]. unfold admitted.
  cbn [clock last_reset num_calls].
  assert (Hbody : requests_made (body_events file_path model_token content o)
                  = [(model_token, content)] /\
                  warnings (body_events file_path model_token content o) = []).
  { unfold body_events. destruct o as [text|e]; [split; reflexivity|].
    destruct (is_network e); split; reflexivity. }
  destruct Hbody as [Hreq Hwarn].
  destruct (_ <=? 0); [|destruct (_ <? _)];
    (eexists _, _, _; split; [reflexivity|]);
    rewrite emits_spec; world_cbn;
    (split; [rewrite <- ?app_assoc; reflexivity|]);
    unfold requests_made, warnings in *; rewrite !pick_app, Hreq, Hwarn;
    split; reflexivity.
Qed.

Lemma process_code_never_retries_witness :
  let E := project_env ["m1"] [Raises (ConnectionError "connection reset");
                               Returns two_issues] in
  exists s w' new,
    process_code E 2 (analyzer_of E) "proj/a.py" "m1" "eval(input())" w0
    = (Ret s, w') /\
    trace w' = (trace w0 ++ new)%list /\
    requests_made new = [("m1", "eval(input())")] /\
    warnings new = [].
Proof.
  apply (process_code_never_retries
           (project_env ["m1"] [Raises (ConnectionError "connection reset");
                                Returns two_issues]) 2
           (analyzer_of (project_env ["m1"] [])) "proj/a.py" "m1"
           "eval(input())" w0).
  lia.
Defined.

(** ** One report for each file *)

(** X16. With at least one token, and answers each of which either does
    not decode as JSON or decodes to an object whose value under
    ["issues"], if any, can be iterated, a run of [analyze] returns and
    has called [add_file_summary] exactly once for each file of the walk
    that has a supported name and can be read, in the order of the walk,
    and for no other file. *)
Theorem analyze_reports_each_eligible_file_once (E : Env) (fuel : nat)
  (self : CodeAnalyzer) (w : world) :
  (2 <= fuel)%nat ->
  token_cycle self <> [] ->
  (forall n model content,
     well_shaped E (response_text (chat_completion E n model content)) = true) ->
  exists w' new,
    analyze E fuel self w = (Ret tt, w') /\
    trace w' = (trace w ++ new)%list /\
    map fst (reports new) = eligible_paths E (os_walk E (directory self)).
Proof.
  intros Hfuel Htok Hshape.
  exact (outer_loop_reports E fuel self Hfuel Htok Hshape
           (os_walk E (directory self)) w).
Qed.

Lemma analyze_reports_each_eligible_file_once_witness :
  let E := project_env ["m1"; "m2"] [Returns two_issues; Returns "oops"] in
  exists w' new,
    analyze E 2 (analyzer_of E) w0 = (Ret tt, w') /\
    trace w' = (trace w0 ++ new)%list /\
    map fst (reports new) = ["proj/a.py"; "proj/b.py"].
Proof.
  apply (analyze_reports_each_eligible_file_once
           (project_env ["m1"; "m2"] [Returns two_issues; Returns "oops"]) 2
           (analyzer_of (project_env ["m1"; "m2"] [])) w0).
  - lia.
  - discriminate.
  - intros [|[|[|n]]] model content; reflexivity.
Defined.

(** ** The rate limit and the attempts of [process_code] *)


